(** * oxidd-viz: selection tool, render vertex shader, section index
      mapper, layer assignment, configuration dispatch and diagram summary.

    Each module embeds one unit:
    - [SelectionTool]   : typescript/src/state/toolbar/SelectionToolState.ts
    - [VertexShader]    : the vertex shader of the text renderer
    - [Sampling32]      : the two sampling lines of that shader in binary32
    - [SectionMapper]   : the section index mapper of the Rust crate, after
                          the specification
    - [LayerAssignment] : the layer assignment of the Rust layout engine,
                          after the specification
    - [ConfigDispatch]  : typescript/src/UI/components/configuration/ConfigTypeComp.tsx
    - [DiagramSummaryUI]: typescript/src/UI/views/diagramCollection/DiagramSummary.tsx,
                          with its user events in [DiagramSummaryEvents] and
                          [DiagramSummaryAll]
    - [CompositeComp]   : CompositeConfigComp, [ConfigTable] the dispatch order
    - [ResizeHandleComp]: typescript/src/layout/styledComponents/ResizeHandle.tsx *)

From Stdlib Require Import NArith ZArith QArith Qminmax Qround Lia Lqa List String Bool.
From Stdlib Require Import SpecFloat.
From stdpp Require Import base list gmap strings.

Local Open Scope N_scope.

(** ** Typed arrays *)

(** A [Uint32Array] is a sequence of numbers below [2^32]; building one
    from arbitrary numbers wraps every element. *)
Definition Uint32Array := list N.

Definition wrap32 (n : N) : N := n mod 2 ^ 32.

Definition is_u32 (n : N) : Prop := n < 2 ^ 32.

Definition u32_array (a : Uint32Array) : Prop := Forall is_u32 a.

(** [new Uint32Array([...])] *)
Definition new_Uint32Array (xs : list N) : Uint32Array := map wrap32 xs.

(** [a.includes(n)] *)
Definition includes (a : Uint32Array) (n : N) : bool := existsb (N.eqb n) a.

(** ** Selection tool (SelectionToolState.ts) *)
Module SelectionTool.

(** The part of the DOM mouse event [apply] reads. *)
Record MouseEvent := { ctrlKey : bool }.

(** [IToolEvent] is declared in [_types/IToolEvent], which is not among the
    sources; these are the two fields [apply] reads: the event kind and
    the optional DOM event. *)
Record IToolEvent := { type : string; event : option MouseEvent }.

(** [drawer.local_nodes_to_sources] is provided by the Rust drawer. *)
Record DiagramSectionDrawerBox :=
  { local_nodes_to_sources : Uint32Array -> Uint32Array }.

(** [visualization.sharedState]: the two watchable fields. *)
Record SharedState := { selection : Uint32Array; highlight : Uint32Array }.

(** [field.set(v)] builds a mutator, [.commit()] performs it as one step. *)
Definition Mutator := SharedState -> SharedState.

Definition selection_set (v : Uint32Array) : Mutator :=
  fun s => {| selection := v; highlight := highlight s |}.

Definition highlight_set (v : Uint32Array) : Mutator :=
  fun s => {| selection := selection s; highlight := v |}.

Definition commit (m : Mutator) (s : SharedState) : SharedState := m s.

(** [event.event?.ctrlKey] *)
Definition event_ctrlKey (ev : IToolEvent) : bool :=
  match event ev with
  | Some e => ctrlKey e
  | None => false
  end.

Definition apply (visualization : SharedState) (drawer : DiagramSectionDrawerBox)
    (nodes : Uint32Array) (ev : IToolEvent) : SharedState :=
  let sourceNodes := local_nodes_to_sources drawer nodes in
  if String.eqb (type ev) "release" then
    let sourceNodes :=
      if event_ctrlKey ev then
        new_Uint32Array
          (List.filter (fun n => negb (includes sourceNodes n)) (selection visualization)
             ++ sourceNodes)
      else sourceNodes in
    commit (selection_set sourceNodes) visualization
  else
    commit (highlight_set sourceNodes) visualization.

(** Events and a drawer for the spec's scenario: local index [i] shows
    the node with global id [i + 1]. *)
Definition release (ctrl : bool) : IToolEvent :=
  {| type := "release"; event := Some {| ctrlKey := ctrl |} |}.

Definition succ_drawer : DiagramSectionDrawerBox :=
  {| local_nodes_to_sources := map N.succ |}.

Definition empty_state : SharedState := {| selection := []; highlight := [] |}.

End SelectionTool.

(** ** Render vertex shader (text vertex shader, GLSL ES 3.00)

    Here shader arithmetic is exact rational arithmetic, which serves the
    structure of [main]: which inputs an output depends on, the page test
    and the matrix product. Rounding and division by zero are outside
    this module; [Sampling32] has the sampling lines in binary32. *)
Module VertexShader.
Local Open Scope Q_scope.

Record vec2 := Vec2 { x2 : Q; y2 : Q }.
Record vec4 := Vec4 { x4 : Q; y4 : Q; z4 : Q; w4 : Q }.
(** A [mat4] is four column vectors. *)
Record mat4 := Mat4 { col0 : vec4; col1 : vec4; col2 : vec4; col3 : vec4 }.

(** [min(x, y)] returns [y] if [y < x], otherwise [x]. *)
Definition glsl_min (x y : Q) : Q :=
  match y ?= x with
  | Lt => y
  | _ => x
  end.

(** [int(f)]: conversion to a signed integer drops the fractional part. *)
Definition glsl_int (f : Q) : Z := Z.quot (Qnum f) (Zpos (Qden f)).

(** [s * v] and [v + w] on [vec2]. *)
Definition scale2 (s : Q) (v : vec2) : vec2 := Vec2 (s * x2 v) (s * y2 v).
Definition add2 (v w : vec2) : vec2 := Vec2 (x2 v + x2 w) (y2 v + y2 w).

(** [m * v]: linear combination of the columns of [m]. *)
Definition mat4_mul_vec4 (m : mat4) (v : vec4) : vec4 :=
  Vec4
    (x4 (col0 m) * x4 v + x4 (col1 m) * y4 v + x4 (col2 m) * z4 v + x4 (col3 m) * w4 v)
    (y4 (col0 m) * x4 v + y4 (col1 m) * y4 v + y4 (col2 m) * z4 v + y4 (col3 m) * w4 v)
    (z4 (col0 m) * x4 v + z4 (col1 m) * y4 v + z4 (col2 m) * z4 v + z4 (col3 m) * w4 v)
    (w4 (col0 m) * x4 v + w4 (col1 m) * y4 v + w4 (col2 m) * z4 v + w4 (col3 m) * w4 v).

(** [v * w] on [vec4] is component-wise. *)
Definition mul4 (v w : vec4) : vec4 :=
  Vec4 (x4 v * x4 w) (y4 v * y4 w) (z4 v * z4 w) (w4 v * w4 w).

(** The [in] variables of one vertex. *)
Record Attributes := {
  position : vec2;
  positionOld : vec2;
  positionStartTime : Q;
  positionDuration : Q;
  exists_ : Q;
  existsOld : Q;
  existsStartTime : Q;
  existsDuration : Q;
  textureIndex : Q;
  charCoord : vec2
}.

Record Uniforms := {
  transform : mat4;
  time : Q;
  boundTextureIndex : Z
}.

Record Outputs := {
  gl_Position : vec4;
  charCoordOut : vec2;
  curExists : Q
}.

Definition positionPer (a : Attributes) (u : Uniforms) : Q :=
  glsl_min ((time u - positionStartTime a) / positionDuration a) 1.

Definition curPosition (a : Attributes) (u : Uniforms) : vec2 :=
  add2 (scale2 (positionPer a u) (position a))
       (scale2 (1 - positionPer a u) (positionOld a)).

Definition existsPer (a : Attributes) (u : Uniforms) : Q :=
  glsl_min ((time u - existsStartTime a) / existsDuration a) 1.

Definition main (a : Attributes) (u : Uniforms) : Outputs :=
  {| charCoordOut := charCoord a;
     curExists := existsPer a u * exists_ a + (1 - existsPer a u) * existsOld a;
     gl_Position :=
       if Z.eqb (boundTextureIndex u) (glsl_int (textureIndex a)) then
         mul4 (mat4_mul_vec4 (transform u)
                 (Vec4 (x2 (curPosition a u)) (y2 (curPosition a u)) 0 1))
              (Vec4 2 2 2 1)
       else Vec4 0 0 0 0 |}.

Definition vec4_eq (v w : vec4) : Prop :=
  x4 v == x4 w /\ y4 v == y4 w /\ z4 v == z4 w /\ w4 v == w4 w.

(** The three animated scalars of a vertex, with the four animation
    fields of each and the value [main] samples for it. *)
Inductive Channel := PositionX | PositionY | Existence.

Definition ch_new (a : Attributes) (c : Channel) : Q :=
  match c with
  | PositionX => x2 (position a)
  | PositionY => y2 (position a)
  | Existence => exists_ a
  end.

Definition ch_old (a : Attributes) (c : Channel) : Q :=
  match c with
  | PositionX => x2 (positionOld a)
  | PositionY => y2 (positionOld a)
  | Existence => existsOld a
  end.

Definition ch_start (a : Attributes) (c : Channel) : Q :=
  match c with
  | Existence => existsStartTime a
  | _ => positionStartTime a
  end.

Definition ch_duration (a : Attributes) (c : Channel) : Q :=
  match c with
  | Existence => existsDuration a
  | _ => positionDuration a
  end.

Definition ch_fraction (a : Attributes) (u : Uniforms) (c : Channel) : Q :=
  match c with
  | Existence => existsPer a u
  | _ => positionPer a u
  end.

Definition ch_value (a : Attributes) (u : Uniforms) (c : Channel) : Q :=
  match c with
  | PositionX => x2 (curPosition a u)
  | PositionY => y2 (curPosition a u)
  | Existence => curExists (main a u)
  end.

(** Concrete vertices used in the examples below. *)
Definition identity : mat4 :=
  Mat4 (Vec4 1 0 0 0) (Vec4 0 1 0 0) (Vec4 0 0 1 0) (Vec4 0 0 0 1).

Definition vertex (old new start dur tex : Q) : Attributes :=
  {| position := Vec2 new new; positionOld := Vec2 old old;
     positionStartTime := start; positionDuration := dur;
     exists_ := new; existsOld := old;
     existsStartTime := start; existsDuration := dur;
     textureIndex := tex; charCoord := Vec2 0 0 |}.

Definition pass (t : Q) (bound : Z) : Uniforms :=
  {| transform := identity; time := t; boundTextureIndex := bound |}.

End VertexShader.

(** ** The sampling lines of the vertex shader in binary32

    A [highp float] is an IEEE 754 binary32 value, with its zeros,
    infinities and NaN, and [<] is the IEEE comparison. GLSL ES 3.00
    leaves the rounding of the arithmetic to the implementation (division
    is only accurate to 2.5 ULP), so the four operations are taken from an
    [Arithmetic]; [ieee] is the correctly rounded one. *)
Module Sampling32.

Definition float := spec_float.
Definition prec : Z := 24.
Definition emax : Z := 128.

Record Arithmetic := {
  fadd : float -> float -> float;
  fsub : float -> float -> float;
  fmul : float -> float -> float;
  fdiv : float -> float -> float
}.

(** Round to nearest, ties to even, on binary32. *)
Definition ieee : Arithmetic :=
  {| fadd := SFadd prec emax; fsub := SFsub prec emax;
     fmul := SFmul prec emax; fdiv := SFdiv prec emax |}.

Definition zero : float := S754_zero false.

(** [1.0f] is 2^23 * 2^-23. *)
Definition one : float := S754_finite false 8388608 (-23).

(** The binary32 value of an integer. *)
Definition of_Z (z : Z) : float := binary_normalize prec emax z 0 false.

(** [min(x, y)] returns [y] if [y < x], otherwise [x]. *)
Definition glsl_min (x y : float) : float := if SFltb y x then y else x.

(** [max(x, y)] returns [y] if [x < y], otherwise [x]. *)
Definition glsl_max (x y : float) : float := if SFltb x y then y else x.

(** [clamp(x, minVal, maxVal)] returns [min(max(x, minVal), maxVal)]. *)
Definition clamp (x minVal maxVal : float) : float :=
  glsl_min (glsl_max x minVal) maxVal.

Record vec2 := Vec2 { x2 : float; y2 : float }.

(** [s * v] and [v + w] on [vec2]. *)
Definition scale2 (A : Arithmetic) (s : float) (v : vec2) : vec2 :=
  Vec2 (fmul A s (x2 v)) (fmul A s (y2 v)).
Definition add2 (A : Arithmetic) (v w : vec2) : vec2 :=
  Vec2 (fadd A (x2 v) (x2 w)) (fadd A (y2 v) (y2 w)).

(** The [in] variables the sampling lines read, and the [time] uniform. *)
Record Attributes := {
  position : vec2;
  positionOld : vec2;
  positionStartTime : float;
  positionDuration : float;
  exists_ : float;
  existsOld : float;
  existsStartTime : float;
  existsDuration : float
}.

Record Uniforms := { time : float }.

Definition positionPer (A : Arithmetic) (a : Attributes) (u : Uniforms) : float :=
  glsl_min (fdiv A (fsub A (time u) (positionStartTime a)) (positionDuration a)) one.

Definition curPosition (A : Arithmetic) (a : Attributes) (u : Uniforms) : vec2 :=
  add2 A (scale2 A (positionPer A a u) (position a))
         (scale2 A (fsub A one (positionPer A a u)) (positionOld a)).

Definition existsPer (A : Arithmetic) (a : Attributes) (u : Uniforms) : float :=
  glsl_min (fdiv A (fsub A (time u) (existsStartTime a)) (existsDuration a)) one.

Definition curExists (A : Arithmetic) (a : Attributes) (u : Uniforms) : float :=
  fadd A (fmul A (existsPer A a u) (exists_ a))
         (fmul A (fsub A one (existsPer A a u)) (existsOld a)).

(** The three animated scalars, as in [VertexShader]. *)
Definition ch_new (a : Attributes) (c : VertexShader.Channel) : float :=
  match c with
  | VertexShader.PositionX => x2 (position a)
  | VertexShader.PositionY => y2 (position a)
  | VertexShader.Existence => exists_ a
  end.

Definition ch_old (a : Attributes) (c : VertexShader.Channel) : float :=
  match c with
  | VertexShader.PositionX => x2 (positionOld a)
  | VertexShader.PositionY => y2 (positionOld a)
  | VertexShader.Existence => existsOld a
  end.

Definition ch_start (a : Attributes) (c : VertexShader.Channel) : float :=
  match c with
  | VertexShader.Existence => existsStartTime a
  | _ => positionStartTime a
  end.

Definition ch_duration (a : Attributes) (c : VertexShader.Channel) : float :=
  match c with
  | VertexShader.Existence => existsDuration a
  | _ => positionDuration a
  end.

(** The quotient [(time - startTime) / duration] as the shader computes it. *)
Definition ch_quotient (A : Arithmetic) (a : Attributes) (u : Uniforms)
    (c : VertexShader.Channel) : float :=
  fdiv A (fsub A (time u) (ch_start a c)) (ch_duration a c).

Definition ch_fraction (A : Arithmetic) (a : Attributes) (u : Uniforms)
    (c : VertexShader.Channel) : float :=
  match c with
  | VertexShader.Existence => existsPer A a u
  | _ => positionPer A a u
  end.

Definition ch_value (A : Arithmetic) (a : Attributes) (u : Uniforms)
    (c : VertexShader.Channel) : float :=
  match c with
  | VertexShader.PositionX => x2 (curPosition A a u)
  | VertexShader.PositionY => y2 (curPosition A a u)
  | VertexShader.Existence => curExists A a u
  end.

(** A vertex whose three scalars all go from [old] to [new], with
    integer-valued fields. *)
Definition vertex (old new start dur : Z) : Attributes :=
  {| position := Vec2 (of_Z new) (of_Z new);
     positionOld := Vec2 (of_Z old) (of_Z old);
     positionStartTime := of_Z start; positionDuration := of_Z dur;
     exists_ := of_Z new; existsOld := of_Z old;
     existsStartTime := of_Z start; existsDuration := of_Z dur |}.

Definition at_time (t : Z) : Uniforms := {| time := of_Z t |}.

End Sampling32.

(** ** Section index mapper *)
Module SectionMapper.

Inductive MappingError := OutOfRange (local : nat).

(** Modelled from the spec: the section index mapper lives in the Rust
    crate and is missing from the sources at hand. A section holds the
    ordered sequence of global ids that defines local index [0..n-1]
    and the reverse (global to local) lookup. *)
Record Section := {
  sources : list N;
  locals : gmap N nat
}.

(** Modelled from the spec: the missing [create]. It "assigns local
    index = position in the given order; builds a global→local lookup";
    the lookup is filled by one insertion per position. *)
Fixpoint build_lookup (i : nat) (ids : list N) (m : gmap N nat) : gmap N nat :=
  match ids with
  | [] => m
  | g :: rest => build_lookup (S i) rest (<[g := i]> m)
  end.

(** Modelled from the spec: the missing [create(sourceIds)]. *)
Definition create (sourceIds : list N) : Section :=
  {| sources := sourceIds; locals := build_lookup 0 sourceIds ∅ |}.

(** Modelled from the spec: the missing [localToSource]. It indexes the
    sequence, and "out-of-range local index fails with MappingError". *)
Fixpoint localToSource (s : Section) (ls : list nat) : MappingError + list N :=
  match ls with
  | [] => inr []
  | l :: rest =>
      match sources s !! l with
      | None => inl (OutOfRange l)
      | Some g =>
          match localToSource s rest with
          | inl e => inl e
          | inr gs => inr (g :: gs)
          end
      end
  end.

(** Modelled from the spec: the missing [sourceToLocal]. "Entries not
    present in the section are silently omitted". *)
Fixpoint sourceToLocal (s : Section) (gs : list N) : list nat :=
  match gs with
  | [] => []
  | g :: rest =>
      match locals s !! g with
      | Some l => l :: sourceToLocal s rest
      | None => sourceToLocal s rest
      end
  end.

(** A sequence of valid local indices of a section. *)
Definition valid_locals (s : Section) (ls : list nat) : Prop :=
  Forall (fun l => (l < length (sources s))%nat) ls.

End SectionMapper.

(** ** Layout engine: layer assignment *)
Module LayerAssignment.

Inductive Kind :=
| decision (variable : nat)
| terminal (value : Z).

Record Node := { id : N; kind : Kind }.
Record Edge := { source : N; target : N; label : nat }.

(** Modelled from the spec: the graph handed to the layout engine, which
    is part of the Rust crate and missing from the sources at hand: the
    sub-graph induced by a section together with the section's roots. *)
Record DiagramGraph := {
  nodes : list Node;
  edges : list Edge;
  roots : list N
}.

Inductive LayoutError := Disconnected (node : N).

Definition is_terminal (n : Node) : bool :=
  match kind n with
  | terminal _ => true
  | decision _ => false
  end.

Definition mem (v : N) (l : list N) : bool := existsb (N.eqb v) l.

Definition node_ids (g : DiagramGraph) : list N := map id (nodes g).

(** Modelled from the spec: the sources of the edges that enter [v] (the
    engine's graph access is missing with it). *)
Definition parents (g : DiagramGraph) (v : N) : list N :=
  map source (List.filter (fun e => N.eqb (target e) v) (edges g)).

Definition omax (a b : option nat) : option nat :=
  match a, b with
  | Some x, Some y => Some (Nat.max x y)
  | Some x, None => Some x
  | None, b => b
  end.

(** Modelled from the spec: "longest-path distance from the section's
    roots". [longest g k v] is the largest number of edges on a walk of
    at most [k] edges from a root to [v], if there is one. *)
Fixpoint longest (g : DiagramGraph) (k : nat) (v : N) : option nat :=
  let base := if mem v (roots g) then Some 0%nat else None in
  match k with
  | O => base
  | S k' =>
      fold_right omax base
        (map (fun u => option_map S (longest g k' u)) (parents g v))
  end.

(** Modelled from the spec: the missing distance computation. No walk of
    an acyclic graph has more edges than there are nodes, so that many
    rounds of [longest] suffice. *)
Definition distance (g : DiagramGraph) (v : N) : option nat :=
  longest g (length (nodes g)) v.

(** Modelled from the spec: the missing final layer, the largest distance
    of a node from the roots. *)
Definition final_layer (g : DiagramGraph) : nat :=
  list_max (omap (distance g) (node_ids g)).

(** Modelled from the spec: the missing layer assignment. "layer(node) =
    longest-path distance from the section's roots"; "terminal nodes
    occupy the final layer". *)
Definition layer (g : DiagramGraph) (n : Node) : option nat :=
  match distance g (id n) with
  | None => None
  | Some d => Some (if is_terminal n then final_layer g else d)
  end.

(** Modelled from the spec: one entry of the missing [LayoutResult], a node
    id with its layer; ordering within the layer and the horizontal
    coordinate are left out. *)
Record Placement := { placed : N; placed_layer : nat }.

(** Modelled from the spec: the missing layout run. It places the nodes
    of the graph one by one and fails with [LayoutError] on a node that
    no root reaches. *)
Fixpoint place (g : DiagramGraph) (ns : list Node) : LayoutError + list Placement :=
  match ns with
  | [] => inr []
  | n :: rest =>
      match layer g n with
      | None => inl (Disconnected (id n))
      | Some l =>
          match place g rest with
          | inl e => inl e
          | inr ps => inr ({| placed := id n; placed_layer := l |} :: ps)
          end
      end
  end.

Definition layout (g : DiagramGraph) : LayoutError + list Placement :=
  place g (nodes g).

(** Walks, listed from the last vertex back to the first. *)
Definition has_edge (g : DiagramGraph) (u v : N) : Prop :=
  exists e, In e (edges g) /\ source e = u /\ target e = v.

Inductive walk (g : DiagramGraph) : list N -> Prop :=
| walk_one v : walk g [v]
| walk_step v u p : walk g (u :: p) -> has_edge g u v -> walk g (v :: u :: p).

(** A walk that starts in a root and ends in [v]. *)
Definition root_walk (g : DiagramGraph) (v : N) (p : list N) : Prop :=
  walk g (v :: p) /\ exists r, List.last (v :: p) v = r /\ In r (roots g).

Definition acyclic (g : DiagramGraph) : Prop :=
  forall p, walk g p -> NoDup p.

(** Valid graphs: node ids are distinct, edges and roots stay inside the
    node set, only decision nodes have outgoing edges, there is no cycle
    and every node is reached from a root. *)
Record valid_graph (g : DiagramGraph) : Prop := {
  ids_distinct : NoDup (node_ids g);
  edges_closed : forall e, In e (edges g) ->
    In (source e) (node_ids g) /\ In (target e) (node_ids g);
  roots_closed : forall r, In r (roots g) -> In r (node_ids g);
  terminals_are_leaves : forall e n, In e (edges g) -> In n (nodes g) ->
    id n = source e -> is_terminal n = false;
  no_cycle : acyclic g;
  connected : forall n, In n (nodes g) -> exists p, root_walk g (id n) p
}.

(** The diamond of the spec: root→{a,b}, a→leaf, b→leaf. *)
Definition diamond : DiagramGraph :=
  {| nodes := [ {| id := 0; kind := decision 0 |};
                {| id := 1; kind := decision 1 |};
                {| id := 2; kind := decision 1 |};
                {| id := 3; kind := terminal 1 |} ];
     edges := [ {| source := 0; target := 1; label := 0 |};
                {| source := 0; target := 2; label := 1 |};
                {| source := 1; target := 3; label := 0 |};
                {| source := 2; target := 3; label := 0 |} ];
     roots := [0] |}.

End LayerAssignment.

(** ** Configuration component dispatch (ConfigTypeComp.tsx) *)
Module ConfigDispatch.

(** The constructors a configuration object may descend from. *)
Inductive ConfigClass :=
| IntConfig | FloatConfig | LabelConfig | CompositeConfig | ChoiceConfig
| ButtonConfig | TextOutputConfig | PanelConfig | LocationConfig
| OtherClass (name : string).

(** A run-time value: an object carries the constructors found on its
    prototype chain, anything else carries none. *)
Inductive JSValue :=
| js_undefined
| js_null
| js_primitive (repr : string)
| js_object (prototype_chain : list ConfigClass).

Definition ConfigClass_eqb (a b : ConfigClass) : bool :=
  match a, b with
  | IntConfig, IntConfig | FloatConfig, FloatConfig | LabelConfig, LabelConfig
  | CompositeConfig, CompositeConfig | ChoiceConfig, ChoiceConfig
  | ButtonConfig, ButtonConfig | TextOutputConfig, TextOutputConfig
  | PanelConfig, PanelConfig | LocationConfig, LocationConfig => true
  | OtherClass n, OtherClass m => String.eqb n m
  | _, _ => false
  end.

(** [value instanceof C] *)
Definition instanceof (value : JSValue) (C : ConfigClass) : bool :=
  match value with
  | js_object chain => existsb (ConfigClass_eqb C) chain
  | _ => false
  end.

Inductive Component :=
| IntConfigComp | FloatConfigComp | LabelConfigComp | CompositeConfigComp
| ChoiceConfigComp | ButtonConfigComp | TextOutputConfigComp
| PanelConfigComp | LocationConfigComp
| ConfigTypeComp_self.

(** A React element: the component with its [value] and optional
    [ChildComp] props, or the empty fragment [<></>]. *)
Inductive Element :=
| element (comp : Component) (value : JSValue) (ChildComp : option Component)
| Fragment.

Definition ConfigTypeComp (value : JSValue) : Element :=
  if instanceof value IntConfig then element IntConfigComp value None
  else if instanceof value FloatConfig then element FloatConfigComp value None
  else if instanceof value LabelConfig then
    element LabelConfigComp value (Some ConfigTypeComp_self)
  else if instanceof value CompositeConfig then
    element CompositeConfigComp value (Some ConfigTypeComp_self)
  else if instanceof value ChoiceConfig then element ChoiceConfigComp value None
  else if instanceof value ButtonConfig then element ButtonConfigComp value None
  else if instanceof value TextOutputConfig then element TextOutputConfigComp value None
  else if instanceof value PanelConfig then element PanelConfigComp value None
  else if instanceof value LocationConfig then
    element LocationConfigComp value (Some ConfigTypeComp_self)
  else Fragment.

Definition handled : list ConfigClass :=
  [IntConfig; FloatConfig; LabelConfig; CompositeConfig; ChoiceConfig;
   ButtonConfig; TextOutputConfig; PanelConfig; LocationConfig].

End ConfigDispatch.

(** ** Diagram summary (DiagramSummary.tsx) *)
Module DiagramSummaryUI.

(** A section of a diagram; [is_FileSource] is [section instanceof FileSource]. *)
Record SectionState := { ID : string; is_FileSource : bool }.

Record DiagramState := {
  name : string;
  type : string;
  sections : list SectionState;
  selectedNodes : Uint32Array
}.

(** The methods of [DiagramState] the component calls; the class itself
    is not part of the sources at hand. *)
Record DiagramMethods := {
  createSectionFromDDDMP : string -> option string -> DiagramState -> DiagramState;
  createSectionFromBuddy :
    string -> option string -> option string -> DiagramState -> DiagramState;
  createSectionFromSelection : Uint32Array -> DiagramState -> DiagramState;
  removeSection : SectionState -> DiagramState -> DiagramState
}.

(** Component state: the diagram and the two [useState] flags. *)
Record State := {
  diagram : DiagramState;
  showDDDMPInputModal : bool;
  showBuddyInputModal : bool
}.

Inductive Callback :=
| startCreatingDDDMPSection
| stopCreatingDDDMPSection
| createDDDMPSection (input : string) (name : option string)
| startCreatingBuddySection
| stopCreatingBuddySection
| createBuddySection (input : string) (vars name : option string)
| createSelectionSection.

Definition call (M : DiagramMethods) (cb : Callback) (st : State) : State :=
  match cb with
  | startCreatingDDDMPSection =>
      {| diagram := diagram st; showDDDMPInputModal := true;
         showBuddyInputModal := showBuddyInputModal st |}
  | stopCreatingDDDMPSection =>
      {| diagram := diagram st; showDDDMPInputModal := false;
         showBuddyInputModal := showBuddyInputModal st |}
  | createDDDMPSection input name =>
      {| diagram := createSectionFromDDDMP M input name (diagram st);
         showDDDMPInputModal := false;
         showBuddyInputModal := showBuddyInputModal st |}
  | startCreatingBuddySection =>
      {| diagram := diagram st; showDDDMPInputModal := showDDDMPInputModal st;
         showBuddyInputModal := true |}
  | stopCreatingBuddySection =>
      {| diagram := diagram st; showDDDMPInputModal := showDDDMPInputModal st;
         showBuddyInputModal := false |}
  | createBuddySection input vars name =>
      {| diagram := createSectionFromBuddy M input vars name (diagram st);
         showDDDMPInputModal := showDDDMPInputModal st;
         showBuddyInputModal := false |}
  | createSelectionSection =>
      {| diagram :=
           createSectionFromSelection M (selectedNodes (diagram st)) (diagram st);
         showDDDMPInputModal := showDDDMPInputModal st;
         showBuddyInputModal := showBuddyInputModal st |}
  end.

(** [!watch(diagram.sections).some(section => section instanceof FileSource)] *)
Definition canCreateFromFile (d : DiagramState) : bool :=
  negb (existsb is_FileSource (sections d)).

Definition canCreateFromSelection (d : DiagramState) : bool :=
  negb (Nat.eqb (length (selectedNodes d)) 0).

(** What [AddSectionButton] receives. *)
Record AddSectionButton := {
  children : string;
  onClick : Callback;
  disabled : bool;
  hover_warning : bool
}.

Definition load_dddmp_button (d : DiagramState) : AddSectionButton :=
  {| children := "Load from dddump";
     onClick := startCreatingDDDMPSection;
     disabled := negb (canCreateFromFile d);
     hover_warning := negb (canCreateFromFile d) |}.

(** Not rendered for an MTBDD diagram. *)
Definition load_buddy_button (d : DiagramState) : option AddSectionButton :=
  if String.eqb (type d) "MTBDD" then None
  else Some {| children := "Load from Buddy";
               onClick := startCreatingBuddySection;
               disabled := negb (canCreateFromFile d);
               hover_warning := negb (canCreateFromFile d) |}.

Definition from_selection_button (d : DiagramState) : AddSectionButton :=
  {| children := "Create from selection";
     onClick := createSelectionSection;
     disabled := negb (canCreateFromSelection d);
     hover_warning := negb (canCreateFromSelection d) |}.

(** A disabled button ignores clicks. *)
Definition click (M : DiagramMethods) (b : AddSectionButton) (st : State) : State :=
  if disabled b then st else call M (onClick b) st.

(** A modal answers [onSelect] only while it is visible. *)
Definition select_dddmp (M : DiagramMethods) (input : string) (name : option string)
    (st : State) : State :=
  if showDDDMPInputModal st then call M (createDDDMPSection input name) st else st.

Definition select_buddy (M : DiagramMethods) (input : string) (vars name : option string)
    (st : State) : State :=
  if showBuddyInputModal st then call M (createBuddySection input vars name) st else st.



Definition modals_closed (st : State) : Prop :=
  showDDDMPInputModal st = false /\ showBuddyInputModal st = false.

(** Methods used in the examples: every import appends a file section,
    "from selection" appends a plain one. *)
Definition add_section (s : SectionState) (d : DiagramState) : DiagramState :=
  {| name := name d; type := type d; sections := sections d ++ [s];
     selectedNodes := selectedNodes d |}.

Definition sample_methods : DiagramMethods :=
  {| createSectionFromDDDMP := fun _ _ => add_section {| ID := "file"; is_FileSource := true |};
     createSectionFromBuddy := fun _ _ _ => add_section {| ID := "file"; is_FileSource := true |};
     createSectionFromSelection := fun _ => add_section {| ID := "sel"; is_FileSource := false |};
     removeSection := fun s d =>
       {| name := name d; type := type d;
          sections :=
            List.filter (fun s' => negb (String.eqb (ID s') (ID s))) (sections d);
          selectedNodes := selectedNodes d |} |}.

Definition fresh (ty : string) : State :=
  {| diagram := {| name := "d"; type := ty; sections := []; selectedNodes := [] |};
     showDDDMPInputModal := false; showBuddyInputModal := false |}.

End DiagramSummaryUI.

(** ** Pointer event sequences of the selection tool *)
Module SelectionTrace.

(** The tool receives one [apply] call per pointer event; a gesture is the
    sequence of hit local nodes and events, handled in order on the same
    drawer. *)
Definition apply_all (drawer : SelectionTool.DiagramSectionDrawerBox)
    (calls : list (Uint32Array * SelectionTool.IToolEvent))
    (visualization : SelectionTool.SharedState) : SelectionTool.SharedState :=
  fold_left (fun st call => SelectionTool.apply st drawer (fst call) (snd call))
    calls visualization.

Definition is_release (call : Uint32Array * SelectionTool.IToolEvent) : bool :=
  String.eqb (SelectionTool.type (snd call)) "release".

End SelectionTrace.

(** ** Composite configuration component (CompositeConfigComp) *)
Module CompositeComp.

(** The two watchable fields of a [CompositeConfig] the component reads. *)
Record CompositeConfig := {
  isHorizontal : bool;
  children : list ConfigDispatch.JSValue
}.

(** [<ChildComp key={i} value={child} />] *)
Record ChildElement := {
  key : nat;
  type : ConfigDispatch.Component;
  value : ConfigDispatch.JSValue
}.

(** The style class [css({">*": {flex: 1}})]. *)
Inductive ClassName := flex_children.

(** The [<Stack>] the component returns. *)
Record Stack := {
  className : option ClassName;
  horizontal : bool;
  stack_children : list ChildElement
}.

(** [children.map((child, i) => <ChildComp key={i} value={child} />)] *)
Fixpoint map_indexed (ChildComp : ConfigDispatch.Component) (i : nat)
    (cs : list ConfigDispatch.JSValue) : list ChildElement :=
  match cs with
  | [] => []
  | child :: rest =>
      {| key := i; type := ChildComp; value := child |}
        :: map_indexed ChildComp (S i) rest
  end.

Definition CompositeConfigComp (value : CompositeConfig)
    (ChildComp : ConfigDispatch.Component) : Stack :=
  {| className := if isHorizontal value then Some flex_children else None;
     horizontal := isHorizontal value;
     stack_children := map_indexed ChildComp 0 (children value) |}.

(** What a child element renders to when its component is
    [ConfigTypeComp]; the other components are defined elsewhere. *)
Definition render_child (c : ChildElement) : option ConfigDispatch.Element :=
  match type c with
  | ConfigDispatch.ConfigTypeComp_self =>
      Some (ConfigDispatch.ConfigTypeComp (value c))
  | _ => None
  end.

End CompositeComp.

(** ** Dispatch table of the configuration components *)
Module ConfigTable.

(** The component and the [ChildComp] prop each handled class is shown
    with, read off the branches of [ConfigTypeComp]. *)
Definition component_of (C : ConfigDispatch.ConfigClass)
  : option (ConfigDispatch.Component * option ConfigDispatch.Component) :=
  match C with
  | ConfigDispatch.IntConfig => Some (ConfigDispatch.IntConfigComp, None)
  | ConfigDispatch.FloatConfig => Some (ConfigDispatch.FloatConfigComp, None)
  | ConfigDispatch.LabelConfig =>
      Some (ConfigDispatch.LabelConfigComp, Some ConfigDispatch.ConfigTypeComp_self)
  | ConfigDispatch.CompositeConfig =>
      Some (ConfigDispatch.CompositeConfigComp, Some ConfigDispatch.ConfigTypeComp_self)
  | ConfigDispatch.ChoiceConfig => Some (ConfigDispatch.ChoiceConfigComp, None)
  | ConfigDispatch.ButtonConfig => Some (ConfigDispatch.ButtonConfigComp, None)
  | ConfigDispatch.TextOutputConfig => Some (ConfigDispatch.TextOutputConfigComp, None)
  | ConfigDispatch.PanelConfig => Some (ConfigDispatch.PanelConfigComp, None)
  | ConfigDispatch.LocationConfig =>
      Some (ConfigDispatch.LocationConfigComp, Some ConfigDispatch.ConfigTypeComp_self)
  | ConfigDispatch.OtherClass _ => None
  end.

(** Dispatch on the first handled class the value is an instance of. *)
Definition first_match (value : ConfigDispatch.JSValue)
  : option ConfigDispatch.ConfigClass :=
  List.find (ConfigDispatch.instanceof value) ConfigDispatch.handled.

Definition dispatch (value : ConfigDispatch.JSValue) : ConfigDispatch.Element :=
  match first_match value with
  | Some C =>
      match component_of C with
      | Some (comp, child) => ConfigDispatch.element comp value child
      | None => ConfigDispatch.Fragment
      end
  | None => ConfigDispatch.Fragment
  end.

End ConfigTable.

(** ** Resize handle (layout/styledComponents/ResizeHandle.tsx) *)
Module ResizeHandleComp.

(** A CSS length: a number of pixels or a percentage. *)
Inductive Size := px (n : nat) | percent (n : nat).

Record Style := { width : Size; height : Size; boxShadow : string }.

Definition ResizeHandle (direction : string) : Style :=
  {| width := if String.eqb direction "horizontal" then px 10 else percent 100;
     height := if String.eqb direction "vertical" then px 10 else percent 100;
     boxShadow := "inset #0000004d 0px 0px 6px 2px" |}.

End ResizeHandleComp.

(** ** User events of the diagram summary *)
Module DiagramSummaryEvents.

(** The events of the three add buttons and of the two modals: a press,
    or the cancel or confirm of a modal. The delete buttons follow in
    [DiagramSummaryAll]. *)
Inductive UIEvent :=
| PressLoadDDDMP
| PressLoadBuddy
| PressFromSelection
| CancelDDDMP
| ConfirmDDDMP (input : string) (name : option string)
| CancelBuddy
| ConfirmBuddy (input : string) (vars name : option string).

(** A modal answers [onCancel] and [onSelect] only while it is visible;
    a button that is not rendered cannot be pressed. *)
Definition step (M : DiagramSummaryUI.DiagramMethods) (ev : UIEvent)
    (st : DiagramSummaryUI.State) : DiagramSummaryUI.State :=
  match ev with
  | PressLoadDDDMP =>
      DiagramSummaryUI.click M
        (DiagramSummaryUI.load_dddmp_button (DiagramSummaryUI.diagram st)) st
  | PressLoadBuddy =>
      match DiagramSummaryUI.load_buddy_button (DiagramSummaryUI.diagram st) with
      | Some b => DiagramSummaryUI.click M b st
      | None => st
      end
  | PressFromSelection =>
      DiagramSummaryUI.click M
        (DiagramSummaryUI.from_selection_button (DiagramSummaryUI.diagram st)) st
  | CancelDDDMP =>
      if DiagramSummaryUI.showDDDMPInputModal st
      then DiagramSummaryUI.call M DiagramSummaryUI.stopCreatingDDDMPSection st
      else st
  | ConfirmDDDMP input name => DiagramSummaryUI.select_dddmp M input name st
  | CancelBuddy =>
      if DiagramSummaryUI.showBuddyInputModal st
      then DiagramSummaryUI.call M DiagramSummaryUI.stopCreatingBuddySection st
      else st
  | ConfirmBuddy input vars name => DiagramSummaryUI.select_buddy M input vars name st
  end.

Definition steps (M : DiagramSummaryUI.DiagramMethods) (evs : list UIEvent)
    (st : DiagramSummaryUI.State) : DiagramSummaryUI.State :=
  fold_left (fun s ev => step M ev s) evs st.

(** Events that hand the diagram to one of its methods. *)
Definition creates (ev : UIEvent) : bool :=
  match ev with
  | PressFromSelection | ConfirmDDDMP _ _ | ConfirmBuddy _ _ _ => true
  | _ => false
  end.

(** Events of the Buddy import: its button and its modal. *)
Definition is_buddy_event (ev : UIEvent) : bool :=
  match ev with
  | PressLoadBuddy | CancelBuddy | ConfirmBuddy _ _ _ => true
  | _ => false
  end.

(** The diagram's methods keep its type. *)
Definition keeps_type (M : DiagramSummaryUI.DiagramMethods) : Prop :=
  (forall input name d,
      DiagramSummaryUI.type (DiagramSummaryUI.createSectionFromDDDMP M input name d)
      = DiagramSummaryUI.type d)
  /\ (forall input vars name d,
      DiagramSummaryUI.type (DiagramSummaryUI.createSectionFromBuddy M input vars name d)
      = DiagramSummaryUI.type d)
  /\ (forall nodes d,
      DiagramSummaryUI.type (DiagramSummaryUI.createSectionFromSelection M nodes d)
      = DiagramSummaryUI.type d).





End DiagramSummaryEvents.

(** ** All events of the diagram summary *)
Module DiagramSummaryAll.

(** Besides the buttons and modals of [DiagramSummaryEvents] the summary
    renders a delete button for the diagram, wired to the [onDelete]
    prop, and hands each section summary an [onDelete] that removes that
    section; [DeleteSection i] is the one of the [i]-th section shown. *)
Inductive AnyEvent :=
| UI (ev : DiagramSummaryEvents.UIEvent)
| DeleteSection (i : nat)
| DeleteDiagram.

(** [onDelete] belongs to the parent; what it does to the component is
    not known here. *)
Definition step (M : DiagramSummaryUI.DiagramMethods)
    (onDelete : DiagramSummaryUI.State -> DiagramSummaryUI.State)
    (ev : AnyEvent) (st : DiagramSummaryUI.State) : DiagramSummaryUI.State :=
  match ev with
  | UI ev => DiagramSummaryEvents.step M ev st
  | DeleteSection i =>
      match DiagramSummaryUI.sections (DiagramSummaryUI.diagram st) !! i with
      | Some section =>
          {| DiagramSummaryUI.diagram :=
               DiagramSummaryUI.removeSection M section (DiagramSummaryUI.diagram st);
             DiagramSummaryUI.showDDDMPInputModal :=
               DiagramSummaryUI.showDDDMPInputModal st;
             DiagramSummaryUI.showBuddyInputModal :=
               DiagramSummaryUI.showBuddyInputModal st |}
      | None => st
      end
  | DeleteDiagram => onDelete st
  end.

Definition steps (M : DiagramSummaryUI.DiagramMethods)
    (onDelete : DiagramSummaryUI.State -> DiagramSummaryUI.State)
    (evs : list AnyEvent) (st : DiagramSummaryUI.State) : DiagramSummaryUI.State :=
  fold_left (fun s ev => step M onDelete ev s) evs st.

(** The events that hand the diagram to one of its methods or to the
    parent. *)
Definition reaches_diagram (ev : AnyEvent) : bool :=
  match ev with
  | UI ev => DiagramSummaryEvents.creates ev
  | DeleteSection _ | DeleteDiagram => true
  end.

End DiagramSummaryAll.

(** * Properties *)

(** ** Typed arrays *)

Lemma includes_In a n : includes a n = true <-> In n a.
Proof.
  unfold includes. rewrite existsb_exists. split.
  - intros (x & Hx & Heq). apply N.eqb_eq in Heq. now subst.
  - intros H. exists n. split; [assumption | apply N.eqb_refl].
Qed.

Lemma includes_false a n : includes a n = false <-> ~ In n a.
Proof.
  rewrite <- includes_In. destruct (includes a n); split; congruence.
Qed.

Lemma wrap32_id n : is_u32 n -> wrap32 n = n.
Proof. intros H. apply N.mod_small. exact H. Qed.

Lemma new_Uint32Array_id xs : u32_array xs -> new_Uint32Array xs = xs.
Proof.
  induction 1 as [| x xs Hx _ IH]; simpl; [reflexivity |].
  rewrite wrap32_id by assumption. f_equal. exact IH.
Qed.

Lemma u32_array_app a b : u32_array a -> u32_array b -> u32_array (a ++ b).
Proof. unfold u32_array. intros Ha Hb. apply Forall_app. split; assumption. Qed.

Lemma u32_array_filter f a : u32_array a -> u32_array (List.filter f a).
Proof.
  unfold u32_array. rewrite !List.Forall_forall. intros H x Hx.
  apply List.filter_In in Hx. apply H, Hx.
Qed.

(** ** Selection tool *)
Section SelectionToolFacts.
Import SelectionTool.

Variables (visualization : SharedState) (drawer : DiagramSectionDrawerBox).
Variables (nodes : Uint32Array) (ev : IToolEvent).

Let hit := local_nodes_to_sources drawer nodes.

(** The array handed to [selection.set] on an additive release holds
    the old ids that were not hit, followed by the hit ids. *)
Lemma merged_In (old new : Uint32Array) n :
  In n (List.filter (fun n => negb (includes new n)) old ++ new)
  <-> In n old \/ In n new.
Proof.
  rewrite List.in_app_iff, List.filter_In, negb_true_iff, includes_false.
  destruct (In_dec N.eq_dec n new) as [Hin | Hout]; tauto.
Qed.

Lemma merged_NoDup (old new : Uint32Array) :
  List.NoDup old -> List.NoDup new ->
  List.NoDup (List.filter (fun n => negb (includes new n)) old ++ new).
Proof.
  intros Hold Hnew. apply List.NoDup_app.
  - apply List.NoDup_filter, Hold.
  - exact Hnew.
  - intros n Hn Hn'. apply List.filter_In in Hn.
    destruct Hn as [_ Hn]. apply negb_true_iff, includes_false in Hn.
    apply Hn, Hn'.
Qed.

Lemma apply_release :
  type ev = "release"%string ->
  apply visualization drawer nodes ev =
    {| selection :=
         if event_ctrlKey ev
         then new_Uint32Array
                (List.filter (fun n => negb (includes hit n)) (selection visualization)
                   ++ hit)
         else hit;
       highlight := highlight visualization |}.
Proof. intros Hty. unfold apply. rewrite Hty. reflexivity. Qed.

Lemma apply_other :
  type ev <> "release"%string ->
  apply visualization drawer nodes ev =
    {| selection := selection visualization; highlight := hit |}.
Proof.
  intros Hty. unfold apply. apply String.eqb_neq in Hty. rewrite Hty. reflexivity.
Qed.

End SelectionToolFacts.

(** C1. On a [release] event [apply] leaves the highlight alone and
    commits, in one step, a new selection: without the control key it is
    exactly the hit global ids; with it, it is the old selection without
    the hit ids followed by the hit ids, that is, as a set the union of
    both, and free of duplicates when the old selection and the hit ids
    are. Committing {1,2} and then {3} gives {3}; committing {1,2} and then
    {3} additively gives {1,2,3}. *)
Theorem selection_release_commit :
  (forall (visualization : SelectionTool.SharedState)
          (drawer : SelectionTool.DiagramSectionDrawerBox)
          (nodes : Uint32Array) (ev : SelectionTool.IToolEvent),
      let hit := SelectionTool.local_nodes_to_sources drawer nodes in
      let after := SelectionTool.apply visualization drawer nodes ev in
      SelectionTool.type ev = "release"%string ->
      u32_array (SelectionTool.selection visualization) ->
      u32_array hit ->
      SelectionTool.highlight after = SelectionTool.highlight visualization
      /\ (SelectionTool.event_ctrlKey ev = false ->
          SelectionTool.selection after = hit)
      /\ (SelectionTool.event_ctrlKey ev = true ->
          SelectionTool.selection after =
            List.filter (fun n => negb (includes hit n))
              (SelectionTool.selection visualization) ++ hit
          /\ (forall n, In n (SelectionTool.selection after) <->
                        In n (SelectionTool.selection visualization) \/ In n hit)
          /\ (List.NoDup (SelectionTool.selection visualization) ->
              List.NoDup hit ->
              List.NoDup (SelectionTool.selection after))))
  /\ SelectionTool.selection
       (SelectionTool.apply
          (SelectionTool.apply SelectionTool.empty_state SelectionTool.succ_drawer
             [0; 1] (SelectionTool.release false))
          SelectionTool.succ_drawer [2] (SelectionTool.release false)) = [3]
  /\ SelectionTool.selection
       (SelectionTool.apply
          (SelectionTool.apply SelectionTool.empty_state SelectionTool.succ_drawer
             [0; 1] (SelectionTool.release false))
          SelectionTool.succ_drawer [2] (SelectionTool.release true)) = [1; 2; 3].
Proof.
  split; [| split; reflexivity].
  intros visualization drawer nodes ev hit after Hty Hold Hhit.
  subst after. rewrite apply_release by exact Hty. fold hit. simpl.
  split; [reflexivity |]. split.
  - intros Hctrl. rewrite Hctrl. reflexivity.
  - intros Hctrl. rewrite Hctrl.
    rewrite new_Uint32Array_id
      by (apply u32_array_app; [apply u32_array_filter, Hold | exact Hhit]).
    split; [reflexivity |]. split.
    + intros n. apply merged_In.
    + apply merged_NoDup.
Qed.

Lemma selection_release_commit_witness :
  let visualization :=
    {| SelectionTool.selection := [1; 2]; SelectionTool.highlight := [7] |} in
  let after :=
    SelectionTool.apply visualization SelectionTool.succ_drawer [1; 2]
      (SelectionTool.release true) in
  SelectionTool.highlight after = [7]
  /\ SelectionTool.selection after = [1; 2; 3]
  /\ List.NoDup (SelectionTool.selection after).
Proof.
  intros visualization after.
  assert (Hold : u32_array [1; 2]) by (repeat constructor).
  assert (Hhit : u32_array [2; 3]) by (repeat constructor).
  assert (Hnd : forall a b : N, a <> b -> List.NoDup [a; b]).
  { intros a b Hab. constructor; [simpl; intuition congruence |].
    constructor; [simpl; tauto | constructor]. }
  pose proof (proj1 selection_release_commit visualization SelectionTool.succ_drawer
                [1; 2] (SelectionTool.release true) eq_refl Hold Hhit)
    as (Hhl & _ & Hadd).
  destruct (Hadd eq_refl) as (Hsel & _ & Hnodup).
  split; [exact Hhl |]. split; [exact Hsel |].
  apply Hnodup; apply Hnd; discriminate.
Defined.

(** C2. On any event other than [release] [apply] writes the hit global
    ids to the highlight and leaves the committed selection unchanged. *)
Theorem selection_hover_highlights_only
    (visualization : SelectionTool.SharedState)
    (drawer : SelectionTool.DiagramSectionDrawerBox)
    (nodes : Uint32Array) (ev : SelectionTool.IToolEvent) :
  SelectionTool.type ev <> "release"%string ->
  let after := SelectionTool.apply visualization drawer nodes ev in
  SelectionTool.highlight after = SelectionTool.local_nodes_to_sources drawer nodes
  /\ SelectionTool.selection after = SelectionTool.selection visualization.
Proof.
  intros Hty after. subst after. rewrite apply_other by exact Hty.
  split; reflexivity.
Qed.

Lemma selection_hover_highlights_only_witness :
  let visualization :=
    {| SelectionTool.selection := [1; 2]; SelectionTool.highlight := [] |} in
  let ev := {| SelectionTool.type := "drag";
               SelectionTool.event := Some {| SelectionTool.ctrlKey := true |} |} in
  let after := SelectionTool.apply visualization SelectionTool.succ_drawer [2] ev in
  SelectionTool.highlight after = [3] /\ SelectionTool.selection after = [1; 2].
Proof.
  intros visualization ev after.
  apply (selection_hover_highlights_only visualization SelectionTool.succ_drawer [2] ev).
  discriminate.
Defined.

(** ** Render vertex shader *)
Section VertexShaderFacts.
Import VertexShader.
Local Open Scope Q_scope.

(** Every channel is sampled by the same two lines of [main]. *)
Lemma ch_fraction_eq a u c :
  ch_fraction a u c = glsl_min ((time u - ch_start a c) / ch_duration a c) 1.
Proof. destruct c; reflexivity. Qed.

Lemma ch_value_eq a u c :
  ch_value a u c =
    ch_fraction a u c * ch_new a c + (1 - ch_fraction a u c) * ch_old a c.
Proof. destruct c; reflexivity. Qed.

End VertexShaderFacts.

(** ** The sampling lines in binary32 *)
Section Sampling32Facts.
Import Sampling32.

Variable A : Arithmetic.

Lemma below_zero_not_above_one (q : float) :
  SFltb q zero = true -> SFltb one q = false.
Proof.
  destruct q as [s | s | | s m e]; try destruct s; simpl;
    try discriminate; reflexivity.
Qed.

Lemma not_below_zero (q : float) :
  SFleb zero q = true -> SFltb q zero = false.
Proof.
  destruct q as [s | s | | s m e]; try destruct s; simpl;
    try discriminate; reflexivity.
Qed.

Lemma glsl_min_not_above (q : float) : SFltb one (glsl_min q one) = false.
Proof.
  unfold glsl_min. destruct (SFltb one q) eqn:E; [reflexivity | exact E].
Qed.

(** Every channel is sampled by the same two lines. *)
Lemma fraction32_eq a u c :
  ch_fraction A a u c = glsl_min (ch_quotient A a u c) one.
Proof. destruct c; reflexivity. Qed.

Lemma value32_eq a u c :
  ch_value A a u c =
    fadd A (fmul A (ch_fraction A a u c) (ch_new a c))
           (fmul A (fsub A one (ch_fraction A a u c)) (ch_old a c)).
Proof. destruct c; reflexivity. Qed.

End Sampling32Facts.

(** C3 (as the shader has it). Whatever the rounding of the arithmetic,
    every animated scalar is sampled as
    [fraction*new + (1 - fraction)*old], where the fraction is the
    computed quotient [(time - startTime)/duration] passed through
    [min(., 1)]: it never exceeds 1, and there is no lower bound. A
    negative quotient is the fraction itself, where
    [clamp(quotient, 0, 1)] is 0; for a quotient that is not below 0 the
    fraction is [clamp(quotient, 0, 1)]. *)
Theorem sampling_clamps_above_only
    (A : Sampling32.Arithmetic) (a : Sampling32.Attributes)
    (u : Sampling32.Uniforms) (c : VertexShader.Channel) :
  let quotient := Sampling32.ch_quotient A a u c in
  let fraction := Sampling32.ch_fraction A a u c in
  fraction = Sampling32.glsl_min quotient Sampling32.one
  /\ Sampling32.ch_value A a u c
     = Sampling32.fadd A
         (Sampling32.fmul A fraction (Sampling32.ch_new a c))
         (Sampling32.fmul A (Sampling32.fsub A Sampling32.one fraction)
            (Sampling32.ch_old a c))
  /\ SFltb Sampling32.one fraction = false
  /\ (SFltb quotient Sampling32.zero = true ->
      fraction = quotient
      /\ Sampling32.clamp quotient Sampling32.zero Sampling32.one = Sampling32.zero)
  /\ (SFleb Sampling32.zero quotient = true ->
      fraction = Sampling32.clamp quotient Sampling32.zero Sampling32.one).
Proof.
  intros quotient fraction. subst quotient fraction.
  rewrite value32_eq, fraction32_eq.
  split; [reflexivity |]. split; [reflexivity |].
  split; [apply glsl_min_not_above |]. split.
  - intros Hneg. unfold Sampling32.clamp, Sampling32.glsl_max.
    rewrite Hneg. unfold Sampling32.glsl_min at 1.
    rewrite (below_zero_not_above_one _ Hneg). split; reflexivity.
  - intros Hpos. unfold Sampling32.clamp, Sampling32.glsl_max.
    rewrite (not_below_zero _ Hpos). reflexivity.
Qed.

Lemma sampling_clamps_above_only_witness :
  Sampling32.ch_fraction Sampling32.ieee (Sampling32.vertex 0 1 1 1)
    (Sampling32.at_time 0) VertexShader.Existence
  = Sampling32.of_Z (-1)
  /\ Sampling32.ch_fraction Sampling32.ieee (Sampling32.vertex 0 1 1 1)
       (Sampling32.at_time 3) VertexShader.Existence
     = Sampling32.one.
Proof.
  pose proof (sampling_clamps_above_only Sampling32.ieee (Sampling32.vertex 0 1 1 1)
                (Sampling32.at_time 0) VertexShader.Existence)
    as (_ & _ & _ & Hbefore & _).
  pose proof (sampling_clamps_above_only Sampling32.ieee (Sampling32.vertex 0 1 1 1)
                (Sampling32.at_time 3) VertexShader.Existence)
    as (_ & _ & _ & _ & Hafter).
  split.
  - destruct Hbefore as [Hf _]; [vm_compute; reflexivity |].
    rewrite Hf. vm_compute. reflexivity.
  - rewrite Hafter by (vm_compute; reflexivity). vm_compute. reflexivity.
Defined.

(** C3 fails as stated: in correctly rounded binary32, one time unit
    before the start of a transition from 0 to 1 of duration 1 the
    shader's fraction is -1, where the clamped fraction is 0, and the
    sampled existence is -1, not the old value 0. *)
Lemma sampling_before_start_counterexample :
  SFltb (Sampling32.time (Sampling32.at_time 0))
        (Sampling32.existsStartTime (Sampling32.vertex 0 1 1 1)) = true
  /\ Sampling32.existsPer Sampling32.ieee (Sampling32.vertex 0 1 1 1)
       (Sampling32.at_time 0) = Sampling32.of_Z (-1)
  /\ Sampling32.clamp
       (Sampling32.ch_quotient Sampling32.ieee (Sampling32.vertex 0 1 1 1)
          (Sampling32.at_time 0) VertexShader.Existence)
       Sampling32.zero Sampling32.one = Sampling32.zero
  /\ Sampling32.curExists Sampling32.ieee (Sampling32.vertex 0 1 1 1)
       (Sampling32.at_time 0) = Sampling32.of_Z (-1)
  /\ SFeqb
       (Sampling32.curExists Sampling32.ieee (Sampling32.vertex 0 1 1 1)
          (Sampling32.at_time 0))
       (Sampling32.existsOld (Sampling32.vertex 0 1 1 1)) = false.
Proof. repeat split; vm_compute; reflexivity. Qed.

(** At a duration of zero the quotient of a started transition is
    infinite and the fraction 1: the new value is sampled at once. *)
Example sampling_zero_duration :
  Sampling32.existsPer Sampling32.ieee (Sampling32.vertex 0 1 1 0)
    (Sampling32.at_time 2) = Sampling32.one
  /\ Sampling32.curExists Sampling32.ieee (Sampling32.vertex 0 1 1 0)
       (Sampling32.at_time 2) = Sampling32.of_Z 1.
Proof. split; vm_compute; reflexivity. Qed.

(** C5 (as the shader has it). [main] samples position and existence
    from the four animation fields of the channel and the [time] uniform
    alone. When [int(textureIndex)], the texture index with its
    fractional part dropped, differs from [boundTextureIndex] the vertex
    gets the position (0,0,0,0); otherwise [gl_Position] is [transform]
    applied to (curPosition, 0, 1) and then multiplied component-wise by
    (2,2,2,1). *)
Theorem vertex_stage_outputs (a : VertexShader.Attributes) (u : VertexShader.Uniforms) :
  (forall c a' u',
      VertexShader.ch_new a' c = VertexShader.ch_new a c ->
      VertexShader.ch_old a' c = VertexShader.ch_old a c ->
      VertexShader.ch_start a' c = VertexShader.ch_start a c ->
      VertexShader.ch_duration a' c = VertexShader.ch_duration a c ->
      VertexShader.time u' = VertexShader.time u ->
      VertexShader.ch_value a' u' c = VertexShader.ch_value a u c)
  /\ VertexShader.charCoordOut (VertexShader.main a u) = VertexShader.charCoord a
  /\ (VertexShader.glsl_int (VertexShader.textureIndex a)
        <> VertexShader.boundTextureIndex u ->
      VertexShader.gl_Position (VertexShader.main a u) = VertexShader.Vec4 0 0 0 0)
  /\ (VertexShader.glsl_int (VertexShader.textureIndex a)
        = VertexShader.boundTextureIndex u ->
      VertexShader.gl_Position (VertexShader.main a u) =
        VertexShader.mul4
          (VertexShader.mat4_mul_vec4 (VertexShader.transform u)
             (VertexShader.Vec4
                (VertexShader.ch_value a u VertexShader.PositionX)
                (VertexShader.ch_value a u VertexShader.PositionY) 0 1))
          (VertexShader.Vec4 2 2 2 1)).
Proof.
  split; [| split; [reflexivity | split]].
  - intros c a' u' Hnew Hold Hstart Hdur Ht.
    rewrite !ch_value_eq, !ch_fraction_eq, Hnew, Hold, Hstart, Hdur, Ht.
    reflexivity.
  - intros Hne. unfold VertexShader.main. simpl.
    destruct (Z.eqb_spec (VertexShader.boundTextureIndex u)
                (VertexShader.glsl_int (VertexShader.textureIndex a))) as [E | E].
    + exfalso. apply Hne. symmetry. exact E.
    + reflexivity.
  - intros Heq. unfold VertexShader.main. simpl.
    rewrite Heq, Z.eqb_refl. reflexivity.
Qed.

Lemma vertex_stage_outputs_witness :
  VertexShader.gl_Position
    (VertexShader.main (VertexShader.vertex 1 1 0 1 3) (VertexShader.pass 0 2))
  = VertexShader.Vec4 0 0 0 0
  /\ VertexShader.vec4_eq
       (VertexShader.gl_Position
          (VertexShader.main (VertexShader.vertex 1 1 0 1 2) (VertexShader.pass 0 2)))
       (VertexShader.Vec4 2 2 0 1).
Proof.
  pose proof (vertex_stage_outputs (VertexShader.vertex 1 1 0 1 3) (VertexShader.pass 0 2))
    as (_ & _ & Hcull & _).
  pose proof (vertex_stage_outputs (VertexShader.vertex 1 1 0 1 2) (VertexShader.pass 0 2))
    as (_ & _ & _ & Hdraw).
  split.
  - apply Hcull. vm_compute. discriminate.
  - rewrite Hdraw by reflexivity. vm_compute. repeat split.
Defined.

(** C5 fails as stated: under the identity transform a vertex resting at
    (1,1) on the bound page is emitted at (2,2,0,1), not at the
    transformed position (1,1,0,1); and a texture index of 1/2, which is
    not the bound index 0, is still drawn. *)
Lemma vertex_stage_counterexample :
  (VertexShader.glsl_int (VertexShader.textureIndex (VertexShader.vertex 1 1 0 1 0))
     = VertexShader.boundTextureIndex (VertexShader.pass 0 0)
   /\ ~ VertexShader.vec4_eq
         (VertexShader.gl_Position
            (VertexShader.main (VertexShader.vertex 1 1 0 1 0) (VertexShader.pass 0 0)))
         (VertexShader.mat4_mul_vec4 (VertexShader.transform (VertexShader.pass 0 0))
            (VertexShader.Vec4
               (VertexShader.x2
                  (VertexShader.curPosition (VertexShader.vertex 1 1 0 1 0)
                     (VertexShader.pass 0 0)))
               (VertexShader.y2
                  (VertexShader.curPosition (VertexShader.vertex 1 1 0 1 0)
                     (VertexShader.pass 0 0)))
               0 1)))
  /\ (~ (VertexShader.textureIndex (VertexShader.vertex 1 1 0 1 (1 # 2))
          == inject_Z (VertexShader.boundTextureIndex (VertexShader.pass 0 0)))%Q
      /\ ~ VertexShader.vec4_eq
            (VertexShader.gl_Position
               (VertexShader.main (VertexShader.vertex 1 1 0 1 (1 # 2))
                  (VertexShader.pass 0 0)))
            (VertexShader.Vec4 0 0 0 0)).
Proof.
  split; [split | split].
  - reflexivity.
  - intros (H & _). vm_compute in H. discriminate.
  - intros H. vm_compute in H. discriminate.
  - intros (H & _). vm_compute in H. discriminate.
Qed.

(** ** Section index mapper *)
Section SectionMapperFacts.
Import SectionMapper.

Lemma build_lookup_other (ids : list N) (i : nat) (m : gmap N nat) (g : N) :
  g ∉ ids -> build_lookup i ids m !! g = m !! g.
Proof.
  revert i m. induction ids as [| g0 rest IH]; intros i m Hg; simpl.
  - reflexivity.
  - apply not_elem_of_cons in Hg as [Hne Hrest].
    rewrite IH by exact Hrest. apply lookup_insert_ne. congruence.
Qed.

Lemma build_lookup_position (ids : list N) (i k : nat) (m : gmap N nat) (g : N) :
  NoDup ids -> ids !! k = Some g ->
  build_lookup i ids m !! g = Some (i + k)%nat.
Proof.
  revert i k m. induction ids as [| g0 rest IH]; intros i k m Hnd Hk.
  - discriminate.
  - apply NoDup_cons in Hnd as [Hfresh Hnd]. destruct k as [| k]; simpl in *.
    + injection Hk as ->. rewrite build_lookup_other by exact Hfresh.
      rewrite lookup_insert_eq. f_equal. lia.
    + rewrite (IH (S i) k) by assumption. f_equal. lia.
Qed.

Lemma create_lookup (sourceIds : list N) (l : nat) (g : N) :
  NoDup sourceIds -> sources (create sourceIds) !! l = Some g ->
  locals (create sourceIds) !! g = Some l.
Proof.
  intros Hnd Hl. unfold create. simpl in *.
  apply (build_lookup_position sourceIds 0 l ∅ g Hnd Hl).
Qed.

End SectionMapperFacts.

(** C6 (for distinct ids). In a section created from distinct global ids, mapping a
    sequence of valid local indices to global ids succeeds, and mapping
    the result back gives the sequence again. *)
Theorem section_round_trip (sourceIds : list N) (L : list nat) :
  NoDup sourceIds ->
  SectionMapper.valid_locals (SectionMapper.create sourceIds) L ->
  exists G,
    SectionMapper.localToSource (SectionMapper.create sourceIds) L = inr G
    /\ SectionMapper.sourceToLocal (SectionMapper.create sourceIds) G = L.
Proof.
  intros Hnd Hvalid. induction Hvalid as [| l rest Hl _ IH].
  - exists []. split; reflexivity.
  - destruct IH as (G & Hto & Hback).
    apply lookup_lt_is_Some_2 in Hl as [g Hg].
    exists (g :: G). split.
    + cbn [SectionMapper.localToSource]. rewrite Hg, Hto. reflexivity.
    + cbn [SectionMapper.sourceToLocal].
      rewrite (create_lookup sourceIds l g Hnd Hg), Hback. reflexivity.
Qed.

Lemma section_round_trip_witness :
  exists G,
    SectionMapper.localToSource (SectionMapper.create [10; 20; 30]%N) [2; 0; 2]%nat = inr G
    /\ SectionMapper.sourceToLocal (SectionMapper.create [10; 20; 30]%N) G = [2; 0; 2]%nat.
Proof.
  apply (section_round_trip [10; 20; 30]%N [2; 0; 2]%nat).
  - apply (bool_decide_unpack _). vm_compute. exact I.
  - unfold SectionMapper.valid_locals. simpl. repeat constructor.
Defined.

(** C6 fails as stated: in the section created from the ids 5, 5 the
    local index 0 is valid and maps to the global id 5, which maps back
    to the local index 1. *)
Lemma section_round_trip_counterexample :
  SectionMapper.valid_locals (SectionMapper.create [5; 5]%N) [0%nat]
  /\ SectionMapper.localToSource (SectionMapper.create [5; 5]%N) [0%nat] = inr [5%N]
  /\ SectionMapper.sourceToLocal (SectionMapper.create [5; 5]%N) [5%N] = [1%nat]
  /\ SectionMapper.sourceToLocal (SectionMapper.create [5; 5]%N) [5%N] <> [0%nat].
Proof.
  split; [repeat constructor |]. split; [reflexivity |]. split; [reflexivity |].
  discriminate.
Qed.

(** ** Layer assignment *)
Section LayerAssignmentFacts.
Import LayerAssignment.

Variable g : DiagramGraph.

Lemma mem_In v l : mem v l = true <-> In v l.
Proof.
  unfold mem. rewrite existsb_exists. split.
  - intros (x & Hx & E). apply N.eqb_eq in E. now subst.
  - intros H. exists v. split; [exact H | apply N.eqb_refl].
Qed.

Lemma parents_spec u v : In u (parents g v) <-> has_edge g u v.
Proof.
  unfold parents, has_edge. rewrite in_map_iff. split.
  - intros (e & Hsrc & He). apply List.filter_In in He as [He Ht].
    apply N.eqb_eq in Ht. exists e. auto.
  - intros (e & He & Hsrc & Ht). exists e. split; [exact Hsrc |].
    apply List.filter_In. split; [exact He | now apply N.eqb_eq].
Qed.

(** [fold_right omax] picks the largest defined candidate. *)
Lemma fold_omax_inv base l d :
  fold_right omax base l = Some d -> base = Some d \/ In (Some d) l.
Proof.
  revert d. induction l as [| x l IH]; intros d H; simpl in *.
  - now left.
  - destruct x as [a |], (fold_right omax base l) as [b |] eqn:E; simpl in H.
    + injection H as <-. destruct (Nat.max_spec a b) as [[_ ->] | [_ ->]].
      * destruct (IH b eq_refl); auto.
      * auto.
    + auto.
    + destruct (IH d H); auto.
    + discriminate.
Qed.

Lemma fold_omax_base base l b :
  base = Some b -> exists d, fold_right omax base l = Some d /\ (b <= d)%nat.
Proof.
  intros ->. induction l as [| x l IH]; simpl.
  - exists b. auto.
  - destruct IH as (d & Hd & Hle). rewrite Hd.
    destruct x as [a |]; simpl; eexists; split; try reflexivity; lia.
Qed.

Lemma fold_omax_elem base l a :
  In (Some a) l -> exists d, fold_right omax base l = Some d /\ (a <= d)%nat.
Proof.
  induction l as [| x l IH]; intros Hin; simpl in *; [contradiction |].
  destruct Hin as [-> | Hin].
  - destruct (fold_right omax base l); simpl; eexists; split; try reflexivity; lia.
  - destruct (IH Hin) as (d & Hd & Hle). rewrite Hd.
    destruct x as [b |]; simpl; eexists; split; try reflexivity; lia.
Qed.

Lemma last_default (x : N) l d d' : List.last (x :: l) d = List.last (x :: l) d'.
Proof.
  revert x. induction l as [| y l IH]; intros x; [reflexivity |].
  change (List.last (y :: l) d = List.last (y :: l) d'). apply IH.
Qed.

Lemma root_walk_start v : In v (roots g) -> root_walk g v [].
Proof. intros H. split; [constructor |]. exists v. auto. Qed.

Lemma root_walk_extend u v p :
  root_walk g u p -> has_edge g u v -> root_walk g v (u :: p).
Proof.
  intros (Hw & r & Hr & Hroot) He. split; [now constructor |].
  exists r. split; [| exact Hroot].
  rewrite <- Hr. change (List.last (u :: p) v = List.last (u :: p) u).
  apply last_default.
Qed.

Lemma root_walk_inv v p :
  root_walk g v p ->
  match p with
  | [] => In v (roots g)
  | u :: p' => root_walk g u p' /\ has_edge g u v
  end.
Proof.
  intros (Hw & r & Hr & Hroot). destruct p as [| u p'].
  - simpl in Hr. now subst.
  - inversion Hw as [| ? ? ? Hw' He']. subst.
    split; [| assumption]. split; [assumption |].
    exists (List.last (u :: p') u). split; [reflexivity |].
    rewrite (last_default u p' u v). exact Hroot.
Qed.

(** [longest] reports the length of an actual walk from a root ... *)
Lemma longest_sound k v d :
  longest g k v = Some d -> exists p, root_walk g v p /\ length p = d.
Proof.
  revert v d. induction k as [| k IH]; intros v d H; simpl in H.
  - destruct (mem v (roots g)) eqn:E; [| discriminate].
    injection H as <-. exists []. split; [| reflexivity].
    apply root_walk_start, mem_In, E.
  - apply fold_omax_inv in H as [H | H].
    + destruct (mem v (roots g)) eqn:E; [| discriminate].
      injection H as <-. exists []. split; [| reflexivity].
      apply root_walk_start, mem_In, E.
    + apply in_map_iff in H as (u & Hu & Hin).
      destruct (longest g k u) as [d' |] eqn:E; [| discriminate].
      injection Hu as <-. destruct (IH u d' E) as (p & Hp & Hlen).
      exists (u :: p). split; [| simpl; now rewrite Hlen].
      apply root_walk_extend; [exact Hp | now apply parents_spec].
Qed.

(** ... and no walk of at most [k] edges from a root is longer. *)
Lemma longest_complete k v p :
  root_walk g v p -> (length p <= k)%nat ->
  exists d, longest g k v = Some d /\ (length p <= d)%nat.
Proof.
  revert v p. induction k as [| k IH]; intros v p Hp Hlen.
  - destruct p; [| simpl in Hlen; lia]. apply root_walk_inv in Hp.
    apply mem_In in Hp. simpl. rewrite Hp. exists 0%nat. auto.
  - apply root_walk_inv in Hp. destruct p as [| u p'].
    + apply mem_In in Hp. simpl. rewrite Hp.
      apply fold_omax_base. reflexivity.
    + destruct Hp as [Hp He]. simpl in Hlen.
      destruct (IH u p' Hp ltac:(lia)) as (d' & Hd' & Hle).
      destruct (fold_omax_elem
                  (if mem v (roots g) then Some 0%nat else None)
                  (map (fun u => option_map S (longest g k u)) (parents g v))
                  (S d')) as (d & Hd & Hle').
      * apply in_map_iff. exists u. rewrite Hd'. split; [reflexivity |].
        now apply parents_spec.
      * exists d. split; [exact Hd | simpl; lia].
Qed.

End LayerAssignmentFacts.

Section ValidGraphFacts.
Import LayerAssignment.

Variable g : DiagramGraph.
Hypothesis Hvalid : valid_graph g.

Lemma root_walk_vertices v p x :
  root_walk g v p -> In x (v :: p) -> In x (node_ids g).
Proof.
  revert v. induction p as [| u p IH]; intros v Hp Hx.
  - apply root_walk_inv in Hp. destruct Hx as [<- | []].
    apply (roots_closed g Hvalid), Hp.
  - apply root_walk_inv in Hp as [Hp He]. destruct Hx as [<- | Hx].
    + destruct He as (e & He & _ & <-). apply (edges_closed g Hvalid e He).
    + apply (IH u Hp Hx).
Qed.

(** In an acyclic graph a walk visits every node at most once. *)
Lemma root_walk_short v p :
  root_walk g v p -> (length p < length (nodes g))%nat.
Proof.
  intros Hp.
  assert (Hnd : List.NoDup (v :: p)).
  { apply NoDup_ListNoDup, (no_cycle g Hvalid), Hp. }
  apply List.NoDup_incl_length with (l' := node_ids g) in Hnd.
  - unfold node_ids in Hnd. rewrite length_map in Hnd. simpl in Hnd. lia.
  - intros x Hx. apply (root_walk_vertices v p x Hp Hx).
Qed.

Lemma distance_edge u v a :
  has_edge g u v -> distance g u = Some a ->
  exists b, distance g v = Some b /\ (a < b)%nat.
Proof.
  intros He Ha. apply longest_sound in Ha as (p & Hp & <-).
  pose proof (root_walk_extend g u v p Hp He) as Hp'.
  pose proof (root_walk_short v (u :: p) Hp') as Hlen.
  destruct (longest_complete g (length (nodes g)) v (u :: p) Hp' ltac:(lia))
    as (b & Hb & Hle).
  exists b. split; [exact Hb | simpl in Hle; lia].
Qed.

Lemma distance_defined n :
  In n (nodes g) -> exists d, distance g (id n) = Some d.
Proof.
  intros Hn. destruct (connected g Hvalid n Hn) as (p & Hp).
  pose proof (root_walk_short (id n) p Hp) as Hlen.
  destruct (longest_complete g (length (nodes g)) (id n) p Hp ltac:(lia))
    as (d & Hd & _).
  exists d. exact Hd.
Qed.

Lemma final_layer_bound v d :
  In v (node_ids g) -> distance g v = Some d -> (d <= final_layer g)%nat.
Proof.
  intros Hv Hd. unfold final_layer.
  assert (Hall : List.Forall (fun k => (k <= list_max (omap (distance g) (node_ids g)))%nat)
                   (omap (distance g) (node_ids g))).
  { apply list_max_le. lia. }
  rewrite List.Forall_forall in Hall. apply Hall.
  apply list_elem_of_In, list_elem_of_omap. exists v.
  split; [apply list_elem_of_In, Hv | exact Hd].
Qed.

Lemma place_defined ns :
  (forall n, In n ns -> In n (nodes g)) -> exists out, place g ns = inr out.
Proof.
  induction ns as [| n ns IH]; intros Hns; simpl.
  - exists []. reflexivity.
  - destruct (distance_defined n (Hns n (or_introl eq_refl))) as (d & Hd).
    unfold layer. rewrite Hd.
    destruct IH as (out & ->); [intros m Hm; apply Hns; now right |].
    eexists. reflexivity.
Qed.

Lemma place_ids ns out : place g ns = inr out -> map placed out = map id ns.
Proof.
  revert out. induction ns as [| n ns IH]; intros out H; simpl in H.
  - injection H as <-. reflexivity.
  - destruct (layer g n) as [l |]; [| discriminate].
    destruct (place g ns) as [e | ps]; [discriminate |].
    injection H as <-. simpl. f_equal. apply IH. reflexivity.
Qed.

Lemma place_layers ns out p :
  place g ns = inr out -> In p out ->
  exists n, In n ns /\ placed p = id n /\ layer g n = Some (placed_layer p).
Proof.
  revert out. induction ns as [| n ns IH]; intros out H Hp; simpl in H.
  - injection H as <-. contradiction.
  - destruct (layer g n) as [l |] eqn:El; [| discriminate].
    destruct (place g ns) as [e | ps]; [discriminate |].
    injection H as <-. destruct Hp as [<- | Hp].
    + exists n. simpl. auto.
    + destruct (IH ps eq_refl Hp) as (m & Hm & Hrest).
      exists m. split; [now right | exact Hrest].
Qed.

(** Along an edge the assigned layer grows. *)
Lemma layer_edge e nu nv lu lv :
  In e (edges g) -> In nu (nodes g) -> In nv (nodes g) ->
  id nu = source e -> id nv = target e ->
  layer g nu = Some lu -> layer g nv = Some lv -> (lu < lv)%nat.
Proof.
  intros He Hnu Hnv Hsrc Htgt Hlu Hlv. unfold layer in Hlu, Hlv.
  rewrite (terminals_are_leaves g Hvalid e nu He Hnu Hsrc) in Hlu.
  destruct (distance g (id nu)) as [a |] eqn:Ea; [| discriminate].
  injection Hlu as <-.
  destruct (distance_edge (id nu) (id nv) a) as (b & Hb & Hlt).
  { exists e. auto. }
  { exact Ea. }
  rewrite Hb in Hlv. injection Hlv as <-.
  destruct (is_terminal nv); [| exact Hlt].
  apply Nat.lt_le_trans with b; [exact Hlt |].
  apply (final_layer_bound (id nv) b); [| exact Hb].
  apply in_map. exact Hnv.
Qed.

End ValidGraphFacts.

(** A graph whose edges all climb some rank has no cycle. *)
Lemma ranked_acyclic (g : LayerAssignment.DiagramGraph) (rank : N -> nat) :
  (forall e, In e (LayerAssignment.edges g) ->
     (rank (LayerAssignment.source e) < rank (LayerAssignment.target e))%nat) ->
  LayerAssignment.acyclic g.
Proof.
  intros Hrank.
  assert (Hbelow : forall p v, LayerAssignment.walk g (v :: p) ->
                     forall x, In x p -> (rank x < rank v)%nat).
  { induction p as [| u p IH]; intros v Hw x Hx; [contradiction |].
    inversion Hw as [| ? ? ? Hw' (e & He & <- & <-)]; subst.
    specialize (Hrank e He). destruct Hx as [<- | Hx]; [exact Hrank |].
    specialize (IH _ Hw' x Hx). lia. }
  intros p Hw. induction Hw as [v | v u p Hw IH He].
  - apply NoDup_singleton.
  - apply NoDup_cons. split; [| exact IH].
    intros Hin. apply list_elem_of_In in Hin.
    assert (Hlt : (rank v < rank v)%nat).
    { apply (Hbelow (u :: p) v); [now constructor | exact Hin]. }
    lia.
Qed.

Lemma diamond_valid : LayerAssignment.valid_graph LayerAssignment.diamond.
Proof.
  constructor.
  - apply (bool_decide_unpack _). vm_compute. exact I.
  - intros e He. simpl in He. unfold LayerAssignment.node_ids. simpl.
    intuition (subst; simpl; tauto).
  - intros r Hr. simpl in Hr. unfold LayerAssignment.node_ids. simpl.
    intuition.
  - intros e n He Hn Hid. simpl in He, Hn.
    intuition (subst; simpl in *; first [reflexivity | congruence]).
  - apply (ranked_acyclic _ N.to_nat). intros e He. simpl in He.
    intuition (subst; simpl; lia).
  - assert (H01 : LayerAssignment.has_edge LayerAssignment.diamond 0 1).
    { eexists. split; [left; reflexivity | split; reflexivity]. }
    assert (H02 : LayerAssignment.has_edge LayerAssignment.diamond 0 2).
    { eexists. split; [right; left; reflexivity | split; reflexivity]. }
    assert (H13 : LayerAssignment.has_edge LayerAssignment.diamond 1 3).
    { eexists. split; [right; right; left; reflexivity | split; reflexivity]. }
    assert (H0 : LayerAssignment.root_walk LayerAssignment.diamond 0 []).
    { apply root_walk_start. left. reflexivity. }
    intros n Hn. simpl in Hn. destruct Hn as [<- | [<- | [<- | [<- | []]]]]; simpl.
    + exists []. exact H0.
    + exists [0]. apply (root_walk_extend _ _ _ _ H0 H01).
    + exists [0]. apply (root_walk_extend _ _ _ _ H0 H02).
    + exists [1; 0].
      apply (root_walk_extend _ _ _ _ (root_walk_extend _ _ _ _ H0 H01) H13).
Qed.

(** C8. The layout of a valid graph succeeds and lists the nodes of the
    graph, each exactly once, also when several edges enter it; along
    every edge the layer of the placed source is strictly below the layer
    of the placed target. *)
Theorem layout_layers_and_sharing (g : LayerAssignment.DiagramGraph) :
  LayerAssignment.valid_graph g ->
  exists out,
    LayerAssignment.layout g = inr out
    /\ map LayerAssignment.placed out = LayerAssignment.node_ids g
    /\ (forall n, In n (LayerAssignment.nodes g) ->
          count_occ N.eq_dec (map LayerAssignment.placed out) (LayerAssignment.id n)
          = 1%nat)
    /\ (forall e, In e (LayerAssignment.edges g) ->
          (exists pu, In pu out /\ LayerAssignment.placed pu = LayerAssignment.source e)
          /\ (exists pv, In pv out /\ LayerAssignment.placed pv = LayerAssignment.target e))
    /\ (forall e pu pv, In e (LayerAssignment.edges g) -> In pu out -> In pv out ->
          LayerAssignment.placed pu = LayerAssignment.source e ->
          LayerAssignment.placed pv = LayerAssignment.target e ->
          (LayerAssignment.placed_layer pu < LayerAssignment.placed_layer pv)%nat).
Proof.
  intros Hvalid.
  destruct (place_defined g Hvalid (LayerAssignment.nodes g)) as (out & Hout);
    [auto |].
  pose proof (place_ids g _ _ Hout) as Hids.
  exists out. split; [exact Hout |]. split; [exact Hids |]. split; [| split].
  - intros n Hn. rewrite Hids.
    apply List.NoDup_count_occ'.
    + apply NoDup_ListNoDup, (LayerAssignment.ids_distinct g Hvalid).
    + apply in_map, Hn.
  - intros e He. destruct (LayerAssignment.edges_closed g Hvalid e He) as [Hs Ht].
    fold (LayerAssignment.node_ids g) in Hids. rewrite <- Hids in Hs, Ht.
    apply in_map_iff in Hs as (pu & Hpu & Hin_u).
    apply in_map_iff in Ht as (pv & Hpv & Hin_v).
    split; [exists pu | exists pv]; auto.
  - intros e pu pv He Hpu Hpv Hsrc Htgt.
    destruct (place_layers g _ _ pu Hout Hpu) as (nu & Hnu & Hidu & Hlu).
    destruct (place_layers g _ _ pv Hout Hpv) as (nv & Hnv & Hidv & Hlv).
    apply (layer_edge g Hvalid e nu nv); try assumption; congruence.
Qed.

Lemma layout_layers_and_sharing_witness :
  exists out,
    LayerAssignment.layout LayerAssignment.diamond = inr out
    /\ map LayerAssignment.placed out = [0; 1; 2; 3]
    /\ count_occ N.eq_dec (map LayerAssignment.placed out) 3 = 1%nat.
Proof.
  destruct (layout_layers_and_sharing LayerAssignment.diamond diamond_valid)
    as (out & Hout & Hids & Honce & _).
  exists out. split; [exact Hout |]. split; [exact Hids |].
  apply (Honce {| LayerAssignment.id := 3;
                  LayerAssignment.kind := LayerAssignment.terminal 1 |}).
  simpl. tauto.
Defined.

(** The diamond of the spec is laid out on three layers, the shared leaf
    once. *)
Example diamond_layout :
  LayerAssignment.layout LayerAssignment.diamond =
    inr [ {| LayerAssignment.placed := 0; LayerAssignment.placed_layer := 0 |};
          {| LayerAssignment.placed := 1; LayerAssignment.placed_layer := 1 |};
          {| LayerAssignment.placed := 2; LayerAssignment.placed_layer := 1 |};
          {| LayerAssignment.placed := 3; LayerAssignment.placed_layer := 2 |} ].
Proof. reflexivity. Qed.

(** ** Configuration component dispatch *)

(** C9. [ConfigTypeComp] yields an element for every value: a component
    that receives the value, or the empty fragment; it is the empty
    fragment exactly when the value is an instance of none of the nine
    handled classes. *)
Theorem config_dispatch_total (value : ConfigDispatch.JSValue) :
  (ConfigDispatch.ConfigTypeComp value = ConfigDispatch.Fragment
   \/ exists comp child,
        ConfigDispatch.ConfigTypeComp value = ConfigDispatch.element comp value child)
  /\ ((forall C, In C ConfigDispatch.handled -> ConfigDispatch.instanceof value C = false)
      <-> ConfigDispatch.ConfigTypeComp value = ConfigDispatch.Fragment).
Proof.
  unfold ConfigDispatch.ConfigTypeComp, ConfigDispatch.handled.
  split.
  - repeat match goal with
           | |- context [if ?b then _ else _] => destruct b; [right; eauto |]
           end.
    left. reflexivity.
  - split.
    + intros H.
      rewrite !H by (simpl; tauto). reflexivity.
    + intros H C HC.
      repeat match type of H with
             | context [if ?b then _ else _] =>
                 destruct b eqn:?; [discriminate H |]
             end.
      simpl in HC. intuition (subst; assumption).
Qed.

Lemma config_dispatch_total_witness :
  ConfigDispatch.ConfigTypeComp
    (ConfigDispatch.js_object [ConfigDispatch.OtherClass "ColorConfig"])
  = ConfigDispatch.Fragment
  /\ ConfigDispatch.ConfigTypeComp ConfigDispatch.js_null = ConfigDispatch.Fragment.
Proof.
  split.
  - apply (config_dispatch_total
             (ConfigDispatch.js_object [ConfigDispatch.OtherClass "ColorConfig"])).
    intros C HC. simpl in HC. intuition (subst; reflexivity).
  - apply (config_dispatch_total ConfigDispatch.js_null).
    intros C HC. reflexivity.
Defined.

(** The first matching class decides: a value that descends from both
    [LabelConfig] and [IntConfig] is shown by [IntConfigComp]. *)
Example config_dispatch_first_match :
  ConfigDispatch.ConfigTypeComp
    (ConfigDispatch.js_object [ConfigDispatch.LabelConfig; ConfigDispatch.IntConfig])
  = ConfigDispatch.element ConfigDispatch.IntConfigComp
      (ConfigDispatch.js_object [ConfigDispatch.LabelConfig; ConfigDispatch.IntConfig])
      None.
Proof. reflexivity. Qed.

(** ** Diagram summary *)
Section DiagramSummaryFacts.
Import DiagramSummaryUI.

Variable M : DiagramMethods.





End DiagramSummaryFacts.




(** * Further properties *)

(** ** Selection tool: repeated and empty gestures *)
Section SelectionToolMore.
Import SelectionTool.

Lemma filter_out_self (hit : Uint32Array) :
  List.filter (fun n => negb (includes hit n)) hit = [].
Proof.
  assert (H : forall l, incl l hit ->
                List.filter (fun n => negb (includes hit n)) l = []).
  { induction l as [| x l IH]; intros Hl; [reflexivity |]. simpl.
    assert (Hx : includes hit x = true) by (apply includes_In, Hl; now left).
    rewrite Hx. simpl. apply IH. intros y Hy. apply Hl. now right. }
  apply H, incl_refl.
Qed.

Lemma filter_twice (f : N -> bool) (l : list N) :
  List.filter f (List.filter f l) = List.filter f l.
Proof.
  induction l as [| x l IH]; [reflexivity |]. simpl.
  destruct (f x) eqn:E; simpl; [rewrite E; f_equal |]; exact IH.
Qed.

Lemma merged_twice (old hit : Uint32Array) :
  List.filter (fun n => negb (includes hit n))
    (List.filter (fun n => negb (includes hit n)) old ++ hit) ++ hit
  = List.filter (fun n => negb (includes hit n)) old ++ hit.
Proof.
  rewrite List.filter_app, filter_twice, filter_out_self, app_nil_r. reflexivity.
Qed.

(** The selection a call produces depends on the selection before it
    only, the highlight on nothing of the state. *)
Lemma apply_selection_congr s1 s2 drawer nodes ev :
  selection s1 = selection s2 ->
  selection (apply s1 drawer nodes ev) = selection (apply s2 drawer nodes ev).
Proof.
  intros H. unfold apply. destruct (String.eqb (type ev) "release"); simpl;
    [rewrite H |]; auto.
Qed.

Lemma apply_highlight_congr s1 s2 drawer nodes ev :
  highlight s1 = highlight s2 ->
  highlight (apply s1 drawer nodes ev) = highlight (apply s2 drawer nodes ev).
Proof.
  intros H. unfold apply. destruct (String.eqb (type ev) "release"); simpl; auto.
Qed.

End SelectionToolMore.

(** X1. Handling the same pointer event twice gives the state that
    handling it once gives: a repeated additive release adds nothing. *)
Theorem apply_idempotent
    (visualization : SelectionTool.SharedState)
    (drawer : SelectionTool.DiagramSectionDrawerBox)
    (nodes : Uint32Array) (ev : SelectionTool.IToolEvent) :
  u32_array (SelectionTool.selection visualization) ->
  u32_array (SelectionTool.local_nodes_to_sources drawer nodes) ->
  SelectionTool.apply (SelectionTool.apply visualization drawer nodes ev) drawer nodes ev
  = SelectionTool.apply visualization drawer nodes ev.
Proof.
  intros Hold Hhit.
  assert (Hm : u32_array
                 (List.filter
                    (fun n => negb (includes
                                      (SelectionTool.local_nodes_to_sources drawer nodes) n))
                    (SelectionTool.selection visualization)
                  ++ SelectionTool.local_nodes_to_sources drawer nodes)).
  { apply u32_array_app; [apply u32_array_filter, Hold | exact Hhit]. }
  destruct (String.eqb_spec (SelectionTool.type ev) "release") as [E | E].
  - rewrite (apply_release (SelectionTool.apply visualization drawer nodes ev)
               drawer nodes ev E).
    rewrite (apply_release visualization drawer nodes ev E). simpl.
    destruct (SelectionTool.event_ctrlKey ev); [| reflexivity].
    rewrite (new_Uint32Array_id _ Hm), merged_twice, (new_Uint32Array_id _ Hm).
    reflexivity.
  - rewrite (apply_other (SelectionTool.apply visualization drawer nodes ev)
               drawer nodes ev E).
    rewrite (apply_other visualization drawer nodes ev E). reflexivity.
Qed.

Lemma apply_idempotent_witness :
  SelectionTool.apply
    (SelectionTool.apply
       {| SelectionTool.selection := [1; 2]; SelectionTool.highlight := [] |}
       SelectionTool.succ_drawer [1; 4] (SelectionTool.release true))
    SelectionTool.succ_drawer [1; 4] (SelectionTool.release true)
  = {| SelectionTool.selection := [1; 2; 5]; SelectionTool.highlight := [] |}.
Proof.
  rewrite (apply_idempotent _ SelectionTool.succ_drawer [1; 4]
             (SelectionTool.release true)).
  - reflexivity.
  - repeat constructor.
  - repeat constructor.
Defined.

(** X2. Over a whole gesture the two fields evolve apart: the selection
    at the end is the one the release events alone produce, the highlight
    the one the other events alone produce. *)
Theorem gesture_fields_independent
    (drawer : SelectionTool.DiagramSectionDrawerBox)
    (calls : list (Uint32Array * SelectionTool.IToolEvent))
    (visualization : SelectionTool.SharedState) :
  SelectionTool.selection (SelectionTrace.apply_all drawer calls visualization)
  = SelectionTool.selection
      (SelectionTrace.apply_all drawer
         (List.filter SelectionTrace.is_release calls) visualization)
  /\ SelectionTool.highlight (SelectionTrace.apply_all drawer calls visualization)
     = SelectionTool.highlight
         (SelectionTrace.apply_all drawer
            (List.filter (fun c => negb (SelectionTrace.is_release c)) calls)
            visualization).
Proof.
  assert (Hsel : forall s1 s2,
             SelectionTool.selection s1 = SelectionTool.selection s2 ->
             SelectionTool.selection (SelectionTrace.apply_all drawer calls s1)
             = SelectionTool.selection
                 (SelectionTrace.apply_all drawer
                    (List.filter SelectionTrace.is_release calls) s2)).
  { induction calls as [| [nodes ev] calls IH]; intros s1 s2 H; [exact H |].
    simpl. unfold SelectionTrace.is_release at 1. simpl.
    destruct (String.eqb (SelectionTool.type ev) "release") eqn:E; simpl.
    - apply IH, apply_selection_congr, H.
    - apply IH. rewrite <- H. apply String.eqb_neq in E.
      rewrite (apply_other s1 drawer nodes ev E). reflexivity. }
  assert (Hhl : forall s1 s2,
             SelectionTool.highlight s1 = SelectionTool.highlight s2 ->
             SelectionTool.highlight (SelectionTrace.apply_all drawer calls s1)
             = SelectionTool.highlight
                 (SelectionTrace.apply_all drawer
                    (List.filter (fun c => negb (SelectionTrace.is_release c)) calls)
                    s2)).
  { clear Hsel.
    induction calls as [| [nodes ev] calls IH]; intros s1 s2 H; [exact H |].
    cbn [List.filter SelectionTrace.apply_all fold_left fst snd].
    unfold SelectionTrace.is_release at 1. cbn [fst snd].
    destruct (String.eqb (SelectionTool.type ev) "release") eqn:E;
      cbn [negb SelectionTrace.apply_all fold_left fst snd].
    - apply IH. rewrite <- H. apply String.eqb_eq in E.
      rewrite (apply_release s1 drawer nodes ev E). reflexivity.
    - apply IH, apply_highlight_congr, H. }
  split; [apply Hsel | apply Hhl]; reflexivity.
Qed.

(** X3. A release that hits nothing clears the selection, unless the
    control key is held: then the selection stays exactly as it was. *)
Theorem release_on_nothing
    (visualization : SelectionTool.SharedState)
    (drawer : SelectionTool.DiagramSectionDrawerBox)
    (nodes : Uint32Array) (ev : SelectionTool.IToolEvent) :
  SelectionTool.type ev = "release"%string ->
  SelectionTool.local_nodes_to_sources drawer nodes = [] ->
  u32_array (SelectionTool.selection visualization) ->
  SelectionTool.selection (SelectionTool.apply visualization drawer nodes ev)
  = if SelectionTool.event_ctrlKey ev
    then SelectionTool.selection visualization
    else [].
Proof.
  intros Hty Hhit Hold. rewrite apply_release by exact Hty. simpl.
  rewrite Hhit. destruct (SelectionTool.event_ctrlKey ev); [| reflexivity].
  rewrite app_nil_r.
  rewrite new_Uint32Array_id by (apply u32_array_filter, Hold).
  clear Hold. induction (SelectionTool.selection visualization) as [| x l IH];
    [reflexivity |]. simpl. f_equal. exact IH.
Qed.

Lemma release_on_nothing_witness :
  SelectionTool.selection
    (SelectionTool.apply
       {| SelectionTool.selection := [4; 9]; SelectionTool.highlight := [] |}
       SelectionTool.succ_drawer [] (SelectionTool.release true)) = [4; 9]
  /\ SelectionTool.selection
       (SelectionTool.apply
          {| SelectionTool.selection := [4; 9]; SelectionTool.highlight := [] |}
          SelectionTool.succ_drawer [] (SelectionTool.release false)) = [].
Proof.
  split.
  - apply (release_on_nothing
             {| SelectionTool.selection := [4; 9]; SelectionTool.highlight := [] |}
             SelectionTool.succ_drawer [] (SelectionTool.release true));
      [reflexivity | reflexivity | repeat constructor].
  - apply (release_on_nothing
             {| SelectionTool.selection := [4; 9]; SelectionTool.highlight := [] |}
             SelectionTool.succ_drawer [] (SelectionTool.release false));
      [reflexivity | reflexivity | repeat constructor].
Defined.

(** X4. Holding the control key never deselects: releasing over ids that
    are all selected already only reorders the selection. *)
Theorem additive_release_on_selected
    (visualization : SelectionTool.SharedState)
    (drawer : SelectionTool.DiagramSectionDrawerBox)
    (nodes : Uint32Array) (ev : SelectionTool.IToolEvent) :
  SelectionTool.type ev = "release"%string ->
  SelectionTool.event_ctrlKey ev = true ->
  u32_array (SelectionTool.selection visualization) ->
  List.NoDup (SelectionTool.selection visualization) ->
  List.NoDup (SelectionTool.local_nodes_to_sources drawer nodes) ->
  incl (SelectionTool.local_nodes_to_sources drawer nodes)
       (SelectionTool.selection visualization) ->
  Permutation
    (SelectionTool.selection (SelectionTool.apply visualization drawer nodes ev))
    (SelectionTool.selection visualization).
Proof.
  intros Hty Hctrl Hold Hnd_old Hnd_hit Hincl.
  assert (Hhit : u32_array (SelectionTool.local_nodes_to_sources drawer nodes)).
  { unfold u32_array in *. rewrite List.Forall_forall in *.
    intros x Hx. apply Hold, Hincl, Hx. }
  rewrite apply_release by exact Hty. simpl. rewrite Hctrl.
  rewrite new_Uint32Array_id
    by (apply u32_array_app; [apply u32_array_filter, Hold | exact Hhit]).
  apply NoDup_Permutation.
  - apply NoDup_ListNoDup, merged_NoDup; assumption.
  - apply NoDup_ListNoDup, Hnd_old.
  - intros x. rewrite !list_elem_of_In, merged_In. split; [| tauto].
    intros [H | H]; [exact H | apply Hincl, H].
Qed.

Lemma additive_release_on_selected_witness :
  Permutation
    (SelectionTool.selection
       (SelectionTool.apply
          {| SelectionTool.selection := [1; 2; 3]; SelectionTool.highlight := [] |}
          SelectionTool.succ_drawer [1] (SelectionTool.release true)))
    [1; 2; 3].
Proof.
  assert (Hnd : forall l : list N, NoDup l -> List.NoDup l)
    by (intros l; apply NoDup_ListNoDup).
  apply (additive_release_on_selected
           {| SelectionTool.selection := [1; 2; 3]; SelectionTool.highlight := [] |}
           SelectionTool.succ_drawer [1] (SelectionTool.release true)).
  - reflexivity.
  - reflexivity.
  - repeat constructor.
  - apply Hnd, (bool_decide_unpack _). vm_compute. exact I.
  - apply Hnd, (bool_decide_unpack _). vm_compute. exact I.
  - intros x Hx. simpl in *. tauto.
Defined.

(** ** Render vertex shader: page test and transform *)
Section VertexShaderMore.
Import VertexShader.
Local Open Scope Q_scope.

Lemma glsl_int_nonneg f : 0 <= f -> glsl_int f = Qfloor f.
Proof.
  destruct f as [n d]. unfold Qle, glsl_int, Qfloor. simpl. intros Hn.
  apply Z.quot_div_nonneg; lia.
Qed.

Lemma Qfloor_unique f b :
  inject_Z b <= f -> f < inject_Z (b + 1) -> Qfloor f = b.
Proof.
  intros Hlo Hhi.
  assert (H1 : (b <= Qfloor f)%Z).
  { rewrite <- (Qfloor_Z b). apply Qfloor_resp_le, Hlo. }
  assert (H2 : (Qfloor f < b + 1)%Z).
  { rewrite Zlt_Qlt. apply Qle_lt_trans with f; [apply Qfloor_le | exact Hhi]. }
  lia.
Qed.

End VertexShaderMore.

(** X9. The page test drops the fractional part of the texture index: a
    vertex with a non-negative index is drawn in the pass whose bound
    index [b] satisfies [b <= textureIndex < b + 1] and is sent to
    (0,0,0,0) in every other pass; indices strictly between -1 and 1 all
    belong to page 0. *)
Theorem page_test_truncates (a : VertexShader.Attributes) (u : VertexShader.Uniforms) :
  let b := VertexShader.boundTextureIndex u in
  let on_page :=
    (inject_Z b <= VertexShader.textureIndex a
     /\ VertexShader.textureIndex a < inject_Z (b + 1))%Q in
  ((0 <= VertexShader.textureIndex a)%Q ->
   (on_page ->
    VertexShader.gl_Position (VertexShader.main a u) =
      VertexShader.mul4
        (VertexShader.mat4_mul_vec4 (VertexShader.transform u)
           (VertexShader.Vec4 (VertexShader.x2 (VertexShader.curPosition a u))
              (VertexShader.y2 (VertexShader.curPosition a u)) 0 1))
        (VertexShader.Vec4 2 2 2 1))
   /\ (~ on_page ->
       VertexShader.gl_Position (VertexShader.main a u) = VertexShader.Vec4 0 0 0 0))
  /\ (VertexShader.glsl_int (VertexShader.textureIndex a) = 0%Z
      <-> (-1 < VertexShader.textureIndex a /\ VertexShader.textureIndex a < 1)%Q).
Proof.
  intros b on_page. subst b on_page. split.
  - intros Hpos. unfold VertexShader.main. simpl.
    rewrite (glsl_int_nonneg _ Hpos). split.
    + intros [Hlo Hhi]. rewrite (Qfloor_unique _ _ Hlo Hhi), Z.eqb_refl. reflexivity.
    + intros Hoff.
      destruct (Z.eqb_spec (VertexShader.boundTextureIndex u)
                  (Qfloor (VertexShader.textureIndex a))) as [E | E]; [| reflexivity].
      exfalso. apply Hoff. rewrite E. split.
      * apply Qfloor_le.
      * apply Qlt_floor.
  - destruct (VertexShader.textureIndex a) as [n d].
    unfold VertexShader.glsl_int, Qlt. simpl.
    rewrite Z.quot_small_iff by lia. lia.
Qed.

Lemma page_test_truncates_witness :
  VertexShader.gl_Position
    (VertexShader.main (VertexShader.vertex 1 1 0 1 (5 # 2)) (VertexShader.pass 0 3))
  = VertexShader.Vec4 0 0 0 0.
Proof.
  pose proof (page_test_truncates (VertexShader.vertex 1 1 0 1 (5 # 2))
                (VertexShader.pass 0 3)) as [Hpage _].
  apply Hpage.
  - vm_compute. discriminate.
  - intros [Hlo _]. vm_compute in Hlo. apply Hlo. reflexivity.
Defined.

(** X10. The third column of [transform] never reaches the output: the
    position is extended by z = 0, so two passes that differ in that
    column only emit the same [gl_Position]. *)
Theorem transform_third_column_unused (a : VertexShader.Attributes)
    (u : VertexShader.Uniforms) (column : VertexShader.vec4) :
  VertexShader.vec4_eq
    (VertexShader.gl_Position (VertexShader.main a u))
    (VertexShader.gl_Position
       (VertexShader.main a
          {| VertexShader.transform :=
               VertexShader.Mat4
                 (VertexShader.col0 (VertexShader.transform u))
                 (VertexShader.col1 (VertexShader.transform u))
                 column
                 (VertexShader.col3 (VertexShader.transform u));
             VertexShader.time := VertexShader.time u;
             VertexShader.boundTextureIndex := VertexShader.boundTextureIndex u |})).
Proof.
  unfold VertexShader.main, VertexShader.vec4_eq. simpl.
  destruct (Z.eqb (VertexShader.boundTextureIndex u)
              (VertexShader.glsl_int (VertexShader.textureIndex a))).
  - unfold VertexShader.curPosition, VertexShader.positionPer. simpl.
    repeat split; ring.
  - repeat split; reflexivity.
Qed.

(** ** Configuration components: dispatch order and children *)

(** X11. The chain of [instanceof] tests is a dispatch on the first
    handled class, in the order Int, Float, Label, Composite, Choice,
    Button, TextOutput, Panel, Location, that the value is an instance
    of; a value of several handled classes is shown by the earliest. *)
Theorem dispatch_is_first_match (value : ConfigDispatch.JSValue) :
  ConfigDispatch.ConfigTypeComp value = ConfigTable.dispatch value.
Proof.
  unfold ConfigDispatch.ConfigTypeComp, ConfigTable.dispatch,
    ConfigTable.first_match, ConfigDispatch.handled.
  cbn [List.find].
  repeat match goal with
         | |- context [ConfigDispatch.instanceof value ?C] =>
             destruct (ConfigDispatch.instanceof value C); [reflexivity |]
         end.
  reflexivity.
Qed.

(** X12. Whatever component is chosen receives the very value that was
    dispatched; [ConfigTypeComp] never chooses itself, and it hands
    itself down as [ChildComp] exactly to the three container components
    (label, composite, location). *)
Theorem dispatch_props (value v : ConfigDispatch.JSValue)
    (comp : ConfigDispatch.Component) (child : option ConfigDispatch.Component) :
  ConfigDispatch.ConfigTypeComp value = ConfigDispatch.element comp v child ->
  v = value
  /\ comp <> ConfigDispatch.ConfigTypeComp_self
  /\ (child = Some ConfigDispatch.ConfigTypeComp_self \/ child = None)
  /\ (child = Some ConfigDispatch.ConfigTypeComp_self <->
      In comp [ConfigDispatch.LabelConfigComp; ConfigDispatch.CompositeConfigComp;
               ConfigDispatch.LocationConfigComp]).
Proof.
  unfold ConfigDispatch.ConfigTypeComp. intros H.
  repeat match type of H with
         | context [if ?b then _ else _] => destruct b
         end;
    try discriminate H; injection H as <- <- <-;
    (split; [reflexivity |]); (split; [discriminate |]);
    (split; [auto |]); simpl; split; intros; intuition discriminate.
Qed.

Lemma dispatch_props_witness :
  ConfigDispatch.js_object [ConfigDispatch.OtherClass "Base"; ConfigDispatch.LabelConfig]
  = ConfigDispatch.js_object [ConfigDispatch.OtherClass "Base"; ConfigDispatch.LabelConfig]
  /\ ConfigDispatch.LabelConfigComp <> ConfigDispatch.ConfigTypeComp_self.
Proof.
  pose proof (dispatch_props
                (ConfigDispatch.js_object
                   [ConfigDispatch.OtherClass "Base"; ConfigDispatch.LabelConfig])
                (ConfigDispatch.js_object
                   [ConfigDispatch.OtherClass "Base"; ConfigDispatch.LabelConfig])
                ConfigDispatch.LabelConfigComp
                (Some ConfigDispatch.ConfigTypeComp_self) eq_refl)
    as (Hv & Hc & _).
  split; assumption.
Defined.

Section CompositeCompFacts.
Import CompositeComp.

Lemma map_indexed_lookup ChildComp i cs j child :
  cs !! j = Some child ->
  map_indexed ChildComp i cs !! j
  = Some {| key := (i + j)%nat; type := ChildComp; value := child |}.
Proof.
  revert i j. induction cs as [| c cs IH]; intros i j Hj; [discriminate |].
  destruct j as [| j]; simpl in *.
  - injection Hj as ->. do 2 f_equal. lia.
  - rewrite (IH (S i) j Hj). do 2 f_equal. lia.
Qed.

Lemma map_indexed_length ChildComp i cs :
  length (map_indexed ChildComp i cs) = length cs.
Proof.
  revert i. induction cs as [| c cs IH]; intros i; simpl; [reflexivity |].
  f_equal. apply IH.
Qed.

Lemma map_indexed_keys ChildComp i cs :
  map key (map_indexed ChildComp i cs) = seq i (length cs).
Proof.
  revert i. induction cs as [| c cs IH]; intros i; simpl; [reflexivity |].
  f_equal. apply IH.
Qed.

End CompositeCompFacts.

(** X13. A composite shows one child element per configuration child, in
    order: the element at position [i] has key [i] and carries the [i]-th
    child, so the keys are pairwise distinct. With [ConfigTypeComp] as
    [ChildComp] that element renders to the dispatch of the child, and a
    child of no handled class keeps its place as an empty fragment. *)
Theorem composite_children (value : CompositeComp.CompositeConfig)
    (ChildComp : ConfigDispatch.Component) :
  let stack := CompositeComp.CompositeConfigComp value ChildComp in
  length (CompositeComp.stack_children stack) = length (CompositeComp.children value)
  /\ map CompositeComp.key (CompositeComp.stack_children stack)
     = seq 0 (length (CompositeComp.children value))
  /\ List.NoDup (map CompositeComp.key (CompositeComp.stack_children stack))
  /\ (forall i child, CompositeComp.children value !! i = Some child ->
        CompositeComp.stack_children stack !! i
        = Some {| CompositeComp.key := i; CompositeComp.type := ChildComp;
                  CompositeComp.value := child |})
  /\ (ChildComp = ConfigDispatch.ConfigTypeComp_self ->
      forall i child, CompositeComp.children value !! i = Some child ->
        (CompositeComp.render_child <$> CompositeComp.stack_children stack !! i)
        = Some (Some (ConfigDispatch.ConfigTypeComp child))).
Proof.
  intros stack. subst stack. unfold CompositeComp.CompositeConfigComp. simpl.
  split; [apply map_indexed_length |].
  split; [apply map_indexed_keys |].
  split; [rewrite map_indexed_keys; apply List.seq_NoDup |].
  split.
  - intros i child Hi. apply (map_indexed_lookup ChildComp 0 _ i child Hi).
  - intros -> i child Hi.
    rewrite (map_indexed_lookup _ 0 _ i child Hi). reflexivity.
Qed.

Lemma composite_children_witness :
  (CompositeComp.render_child <$>
     CompositeComp.stack_children
       (CompositeComp.CompositeConfigComp
          {| CompositeComp.isHorizontal := true;
             CompositeComp.children :=
               [ConfigDispatch.js_object [ConfigDispatch.IntConfig];
                ConfigDispatch.js_null;
                ConfigDispatch.js_object [ConfigDispatch.ButtonConfig]] |}
          ConfigDispatch.ConfigTypeComp_self) !! 1%nat)
  = Some (Some ConfigDispatch.Fragment).
Proof.
  pose proof (composite_children
                {| CompositeComp.isHorizontal := true;
                   CompositeComp.children :=
                     [ConfigDispatch.js_object [ConfigDispatch.IntConfig];
                      ConfigDispatch.js_null;
                      ConfigDispatch.js_object [ConfigDispatch.ButtonConfig]] |}
                ConfigDispatch.ConfigTypeComp_self) as (_ & _ & _ & _ & Hrender).
  apply (Hrender eq_refl 1%nat ConfigDispatch.js_null). reflexivity.
Defined.

(** ** Resize handle *)

(** X14. A resize handle is 10 pixels wide exactly for the direction
    "horizontal" and 10 pixels high exactly for "vertical"; the other
    dimension is 100%, so no handle is fixed in both dimensions, and for
    any other direction it fills both. *)
Theorem resize_handle_dimensions (direction : string) :
  let style := ResizeHandleComp.ResizeHandle direction in
  (ResizeHandleComp.width style = ResizeHandleComp.px 10
   <-> direction = "horizontal"%string)
  /\ (ResizeHandleComp.height style = ResizeHandleComp.px 10
      <-> direction = "vertical"%string)
  /\ (ResizeHandleComp.width style = ResizeHandleComp.percent 100
      \/ ResizeHandleComp.height style = ResizeHandleComp.percent 100)
  /\ (direction <> "horizontal"%string -> direction <> "vertical"%string ->
      ResizeHandleComp.width style = ResizeHandleComp.percent 100
      /\ ResizeHandleComp.height style = ResizeHandleComp.percent 100).
Proof.
  intros style. subst style. unfold ResizeHandleComp.ResizeHandle. simpl.
  destruct (String.eqb_spec direction "horizontal") as [Eh | Eh];
    destruct (String.eqb_spec direction "vertical") as [Ev | Ev];
    try (subst; discriminate);
    repeat split; intros; try tauto; try discriminate; auto; congruence.
Qed.

Lemma resize_handle_dimensions_witness :
  ResizeHandleComp.width (ResizeHandleComp.ResizeHandle "diagonal")
  = ResizeHandleComp.percent 100
  /\ ResizeHandleComp.height (ResizeHandleComp.ResizeHandle "diagonal")
     = ResizeHandleComp.percent 100.
Proof.
  apply (resize_handle_dimensions "diagonal"); discriminate.
Defined.

(** ** Diagram summary: user events *)
Section DiagramSummaryMore.
Import DiagramSummaryUI DiagramSummaryEvents.

Variable M : DiagramMethods.

(** On an MTBDD diagram whose Buddy modal is closed the Buddy events do
    nothing, and no event opens the modal or changes the type. *)
Lemma mtbdd_step ev st :
  keeps_type M ->
  type (diagram st) = "MTBDD"%string -> showBuddyInputModal st = false ->
  type (diagram (step M ev st)) = "MTBDD"%string
  /\ showBuddyInputModal (step M ev st) = false
  /\ (is_buddy_event ev = true -> step M ev st = st).
Proof.
  intros (Hdd & Hbu & Hsel) Hty Hclosed.
  destruct ev; simpl; unfold click, select_dddmp, select_buddy, load_buddy_button;
    simpl; rewrite ?Hty, ?Hclosed; simpl;
    repeat match goal with
           | |- context [if ?b then _ else _] => destruct b; simpl
           end;
    rewrite ?Hdd, ?Hsel; auto; repeat split; auto; discriminate.
Qed.

End DiagramSummaryMore.

(** X15. "Create from selection" is guarded by the selection: with no node
    selected the press changes nothing; otherwise the diagram is handed
    exactly its selected nodes and no modal is touched. *)
Theorem from_selection_guard (M : DiagramSummaryUI.DiagramMethods)
    (st : DiagramSummaryUI.State) :
  let d := DiagramSummaryUI.diagram st in
  let after := DiagramSummaryEvents.step M DiagramSummaryEvents.PressFromSelection st in
  (DiagramSummaryUI.disabled (DiagramSummaryUI.from_selection_button d) = true
   <-> DiagramSummaryUI.selectedNodes d = [])
  /\ (DiagramSummaryUI.selectedNodes d = [] -> after = st)
  /\ (DiagramSummaryUI.selectedNodes d <> [] ->
      DiagramSummaryUI.diagram after
      = DiagramSummaryUI.createSectionFromSelection M
          (DiagramSummaryUI.selectedNodes d) d
      /\ DiagramSummaryUI.showDDDMPInputModal after
         = DiagramSummaryUI.showDDDMPInputModal st
      /\ DiagramSummaryUI.showBuddyInputModal after
         = DiagramSummaryUI.showBuddyInputModal st).
Proof.
  intros d after. subst d after. simpl.
  unfold DiagramSummaryUI.click, DiagramSummaryUI.from_selection_button,
    DiagramSummaryUI.canCreateFromSelection. simpl.
  destruct (DiagramSummaryUI.selectedNodes (DiagramSummaryUI.diagram st))
    as [| n ns] eqn:E; simpl.
  - repeat split; auto; congruence.
  - repeat split; auto; try discriminate; congruence.
Qed.

Lemma from_selection_guard_witness :
  DiagramSummaryEvents.step DiagramSummaryUI.sample_methods
    DiagramSummaryEvents.PressFromSelection (DiagramSummaryUI.fresh "BDD")
  = DiagramSummaryUI.fresh "BDD"
  /\ DiagramSummaryUI.sections
       (DiagramSummaryUI.diagram
          (DiagramSummaryEvents.step DiagramSummaryUI.sample_methods
             DiagramSummaryEvents.PressFromSelection
             {| DiagramSummaryUI.diagram :=
                  {| DiagramSummaryUI.name := "d"; DiagramSummaryUI.type := "BDD";
                     DiagramSummaryUI.sections := [];
                     DiagramSummaryUI.selectedNodes := [3] |};
                DiagramSummaryUI.showDDDMPInputModal := false;
                DiagramSummaryUI.showBuddyInputModal := false |}))
     = [{| DiagramSummaryUI.ID := "sel"; DiagramSummaryUI.is_FileSource := false |}].
Proof.
  split.
  - apply (from_selection_guard DiagramSummaryUI.sample_methods
             (DiagramSummaryUI.fresh "BDD")). reflexivity.
  - pose proof (from_selection_guard DiagramSummaryUI.sample_methods
                  {| DiagramSummaryUI.diagram :=
                       {| DiagramSummaryUI.name := "d"; DiagramSummaryUI.type := "BDD";
                          DiagramSummaryUI.sections := [];
                          DiagramSummaryUI.selectedNodes := [3] |};
                     DiagramSummaryUI.showDDDMPInputModal := false;
                     DiagramSummaryUI.showBuddyInputModal := false |})
      as (_ & _ & Hrun).
    destruct Hrun as (Hd & _); [discriminate |]. rewrite Hd. reflexivity.
Defined.

(** X16. On an MTBDD diagram the Buddy import is out of reach: if the
    diagram's methods keep its type and the Buddy modal is closed, then
    after any sequence of user events the modal is still closed, and the
    sequence has the effect it has with its Buddy events left out. *)
Theorem mtbdd_has_no_buddy_import (M : DiagramSummaryUI.DiagramMethods)
    (evs : list DiagramSummaryEvents.UIEvent) (st : DiagramSummaryUI.State) :
  DiagramSummaryEvents.keeps_type M ->
  DiagramSummaryUI.type (DiagramSummaryUI.diagram st) = "MTBDD"%string ->
  DiagramSummaryUI.showBuddyInputModal st = false ->
  DiagramSummaryUI.showBuddyInputModal (DiagramSummaryEvents.steps M evs st) = false
  /\ DiagramSummaryEvents.steps M evs st
     = DiagramSummaryEvents.steps M
         (List.filter (fun ev => negb (DiagramSummaryEvents.is_buddy_event ev)) evs) st.
Proof.
  intros HM. revert st. induction evs as [| ev evs IH]; intros st Hty Hclosed.
  - split; [exact Hclosed | reflexivity].
  - destruct (mtbdd_step M ev st HM Hty Hclosed) as (Hty' & Hclosed' & Hnoop).
    destruct (IH _ Hty' Hclosed') as [Hflag Heq].
    cbn [List.filter DiagramSummaryEvents.steps fold_left].
    destruct (DiagramSummaryEvents.is_buddy_event ev) eqn:E; cbn [negb].
    + rewrite (Hnoop eq_refl) in *. split; [exact Hflag | exact Heq].
    + split; [exact Hflag | exact Heq].
Qed.

Lemma mtbdd_has_no_buddy_import_witness :
  DiagramSummaryUI.showBuddyInputModal
    (DiagramSummaryEvents.steps DiagramSummaryUI.sample_methods
       [DiagramSummaryEvents.PressLoadBuddy;
        DiagramSummaryEvents.ConfirmBuddy "b" None None;
        DiagramSummaryEvents.PressLoadDDDMP]
       (DiagramSummaryUI.fresh "MTBDD")) = false.
Proof.
  apply (mtbdd_has_no_buddy_import DiagramSummaryUI.sample_methods
           [DiagramSummaryEvents.PressLoadBuddy;
            DiagramSummaryEvents.ConfirmBuddy "b" None None;
            DiagramSummaryEvents.PressLoadDDDMP]
           (DiagramSummaryUI.fresh "MTBDD")).
  - repeat split.
  - reflexivity.
  - reflexivity.
Defined.

(** X17. Of all the events of the summary, only a confirmed import,
    "Create from selection" and the two kinds of delete button reach the
    diagram: a sequence of other events (presses of the file buttons,
    cancels) leaves it as it was. The delete button of the [i]-th section
    shown hands exactly that section to [removeSection] and touches no
    modal. *)
Theorem diagram_changes_only_on_create (M : DiagramSummaryUI.DiagramMethods)
    (onDelete : DiagramSummaryUI.State -> DiagramSummaryUI.State)
    (st : DiagramSummaryUI.State) :
  (forall evs,
      Forall (fun ev => DiagramSummaryAll.reaches_diagram ev = false) evs ->
      DiagramSummaryUI.diagram (DiagramSummaryAll.steps M onDelete evs st)
      = DiagramSummaryUI.diagram st)
  /\ (forall i section,
        DiagramSummaryUI.sections (DiagramSummaryUI.diagram st) !! i = Some section ->
        DiagramSummaryAll.step M onDelete (DiagramSummaryAll.DeleteSection i) st
        = {| DiagramSummaryUI.diagram :=
               DiagramSummaryUI.removeSection M section (DiagramSummaryUI.diagram st);
             DiagramSummaryUI.showDDDMPInputModal :=
               DiagramSummaryUI.showDDDMPInputModal st;
             DiagramSummaryUI.showBuddyInputModal :=
               DiagramSummaryUI.showBuddyInputModal st |})
  /\ (forall i,
        DiagramSummaryUI.sections (DiagramSummaryUI.diagram st) !! i = None ->
        DiagramSummaryAll.step M onDelete (DiagramSummaryAll.DeleteSection i) st = st).
Proof.
  split; [| split].
  - intros evs Hall. revert st. induction Hall as [| ev evs Hev _ IH]; intros st.
    + reflexivity.
    + cbn [DiagramSummaryAll.steps fold_left].
      fold (DiagramSummaryAll.steps M onDelete evs
              (DiagramSummaryAll.step M onDelete ev st)).
      rewrite IH. destruct ev as [ev | i |]; try discriminate Hev.
      destruct ev; try discriminate Hev; simpl;
        unfold DiagramSummaryUI.click, DiagramSummaryUI.load_buddy_button; simpl;
        repeat match goal with
               | |- context [if ?b then _ else _] => destruct b; simpl
               end; reflexivity.
  - intros i section Hi. simpl. rewrite Hi. reflexivity.
  - intros i Hi. simpl. rewrite Hi. reflexivity.
Qed.

Lemma diagram_changes_only_on_create_witness :
  DiagramSummaryUI.diagram
    (DiagramSummaryAll.steps DiagramSummaryUI.sample_methods (fun st => st)
       [DiagramSummaryAll.UI DiagramSummaryEvents.PressLoadDDDMP;
        DiagramSummaryAll.UI DiagramSummaryEvents.PressLoadBuddy;
        DiagramSummaryAll.UI DiagramSummaryEvents.CancelDDDMP]
       (DiagramSummaryUI.fresh "BDD"))
  = DiagramSummaryUI.diagram (DiagramSummaryUI.fresh "BDD").
Proof.
  apply (diagram_changes_only_on_create DiagramSummaryUI.sample_methods
           (fun st => st) (DiagramSummaryUI.fresh "BDD")).
  repeat constructor.
Defined.

(** X18. Cancelling undoes the press: from closed modals, pressing a file
    button and cancelling the modal it opened gives back the state. *)
Theorem press_then_cancel (M : DiagramSummaryUI.DiagramMethods)
    (st : DiagramSummaryUI.State) :
  DiagramSummaryUI.modals_closed st ->
  DiagramSummaryEvents.step M DiagramSummaryEvents.CancelDDDMP
    (DiagramSummaryEvents.step M DiagramSummaryEvents.PressLoadDDDMP st) = st
  /\ DiagramSummaryEvents.step M DiagramSummaryEvents.CancelBuddy
       (DiagramSummaryEvents.step M DiagramSummaryEvents.PressLoadBuddy st) = st.
Proof.
  intros [Hd Hb]. destruct st as [d sd sb]. simpl in Hd, Hb. subst sd sb.
  simpl. unfold DiagramSummaryUI.click, DiagramSummaryUI.load_buddy_button. simpl.
  split.
  - destruct (DiagramSummaryUI.canCreateFromFile d); reflexivity.
  - destruct (String.eqb (DiagramSummaryUI.type d) "MTBDD"); [reflexivity |].
    simpl. destruct (DiagramSummaryUI.canCreateFromFile d); reflexivity.
Qed.

Lemma press_then_cancel_witness :
  DiagramSummaryEvents.step DiagramSummaryUI.sample_methods
    DiagramSummaryEvents.CancelDDDMP
    (DiagramSummaryEvents.step DiagramSummaryUI.sample_methods
       DiagramSummaryEvents.PressLoadDDDMP (DiagramSummaryUI.fresh "BDD"))
  = DiagramSummaryUI.fresh "BDD".
Proof.
  apply (press_then_cancel DiagramSummaryUI.sample_methods
           (DiagramSummaryUI.fresh "BDD")).
  split; reflexivity.
Defined.
